(** * A Bloom filter server in Go: the filter core

    Shallow embedding of [bloomfilter.go] (type [BloomFilter] with
    [NewBloomFilter], [Add], [Contains], [Stats], [Reset] and
    [getHashValues]) and the properties its specification states about it.

    Conventions.
    - Go's [uint], [uint64] and [int] are the 64-bit types of a 64-bit
      build; values are carried as [Z] and every wrap-around is written out.
    - A byte is a [Z] in [0, 256); a Go [string] is a Rocq [string] read as
      its byte sequence.
    - A run-time panic is an explicit [Failed] outcome; an operation that
      mutates the filter returns the filter it leaves behind together with
      its outcome.
    - The mutex only serialises the operations, so each operation is
      modelled as one atomic step on the filter. *)

From Stdlib Require Import ZArith Lia String Ascii QArith Qround.
From stdpp Require Import base list.

Local Open Scope Z_scope.

(** ** SHA-256

    [crypto/sha256] is Go's standard library, not part of the repository.
    It is written here after FIPS 180-4, in the shape of Go's
    [digest.Write], [digest.checkSum] and [blockGeneric], so that the
    filter can be run on concrete items. *)
Module SHA256.

Definition u32 (x : Z) : Z := x mod 2 ^ 32.

(** [bits.RotateLeft32(x, -n)] *)
Definition rotr (x n : Z) : Z :=
  u32 (Z.lor (Z.shiftr x n) (Z.shiftl x (32 - n))).

(** The round constants of FIPS 180-4, section 4.2.2, in decimal. *)
Definition K : list Z :=
  [
    1116352408; 1899447441; 3049323471; 3921009573; 961987163; 1508970993;
    2453635748; 2870763221; 3624381080; 310598401; 607225278; 1426881987;
    1925078388; 2162078206; 2614888103; 3248222580; 3835390401; 4022224774;
    264347078; 604807628; 770255983; 1249150122; 1555081692; 1996064986;
    2554220882; 2821834349; 2952996808; 3210313671; 3336571891; 3584528711;
    113926993; 338241895; 666307205; 773529912; 1294757372; 1396182291;
    1695183700; 1986661051; 2177026350; 2456956037; 2730485921; 2820302411;
    3259730800; 3345764771; 3516065817; 3600352804; 4094571909; 275423344;
    430227734; 506948616; 659060556; 883997877; 958139571; 1322822218;
    1537002063; 1747873779; 1955562222; 2024104815; 2227730452; 2361852424;
    2428436474; 2756734187; 3204031479; 3329325298
  ].

(** The eight working words [h0 .. h7]. *)
Record words8 : Type := W8 {
  wa : Z; wb : Z; wc : Z; wd : Z; we : Z; wf : Z; wg : Z; wh : Z
}.

(** The initial hash value, section 5.3.3, in decimal. *)
Definition init : words8 :=
  W8 1779033703 3144134277 1013904242 2773480762
     1359893119 2600822924 528734635 1541459225.

(** [w[i] = p[j]<<24 | p[j+1]<<16 | p[j+2]<<8 | p[j+3]] with [j = 4*i]. *)
Definition load32 (p : list Z) (i : nat) : Z :=
  let j := (4 * i)%nat in
  Z.lor (Z.lor (Z.lor (Z.shiftl (nth j p 0) 24)
                      (Z.shiftl (nth (j + 1) p 0) 16))
               (Z.shiftl (nth (j + 2) p 0) 8))
        (nth (j + 3) p 0).

(** One step of the message schedule: [w] holds [w[0 .. i-1]]. *)
Definition schedule_next (w : list Z) : Z :=
  let i := length w in
  let v1 := nth (i - 2) w 0 in
  let t1 := Z.lxor (Z.lxor (rotr v1 17) (rotr v1 19)) (Z.shiftr v1 10) in
  let v2 := nth (i - 15) w 0 in
  let t2 := Z.lxor (Z.lxor (rotr v2 7) (rotr v2 18)) (Z.shiftr v2 3) in
  u32 (t1 + nth (i - 7) w 0 + t2 + nth (i - 16) w 0).

Fixpoint schedule (n : nat) (w : list Z) : list Z :=
  match n with
  | O => w
  | S n' => schedule n' (w ++ [schedule_next w])
  end.

(** One of the 64 rounds, on the constant [k] and the schedule word [w]. *)
Definition round (s : words8) (kw : Z * Z) : words8 :=
  let '(W8 a b c d e f g h) := s in
  let '(k, w) := kw in
  let t1 := u32 (h
                 + Z.lxor (Z.lxor (rotr e 6) (rotr e 11)) (rotr e 25)
                 + Z.lxor (Z.land e f) (Z.land (u32 (Z.lnot e)) g)
                 + k + w) in
  let t2 := u32 (Z.lxor (Z.lxor (rotr a 2) (rotr a 13)) (rotr a 22)
                 + Z.lxor (Z.lxor (Z.land a b) (Z.land a c)) (Z.land b c)) in
  W8 (u32 (t1 + t2)) a b c (u32 (d + t1)) e f g.

(** [blockGeneric] on one 64-byte chunk. *)
Definition block (s : words8) (p : list Z) : words8 :=
  let w := schedule 48 (map (load32 p) (seq 0 16)) in
  let '(W8 a b c d e f g h) := fold_left round (combine K w) s in
  W8 (u32 (wa s + a)) (u32 (wb s + b)) (u32 (wc s + c)) (u32 (wd s + d))
     (u32 (we s + e)) (u32 (wf s + f)) (u32 (wg s + g)) (u32 (wh s + h)).

(** The running digest: state words, buffered bytes, bytes written. *)
Record digest : Type := Digest { h : words8; x : list Z; len : Z }.

Definition New : digest := Digest init [] 0.

Definition write_byte (d : digest) (b : Z) : digest :=
  let buf := x d ++ [b] in
  if (length buf =? 64)%nat
  then Digest (block (h d) buf) [] ((len d + 1) mod 2 ^ 64)
  else Digest (h d) buf ((len d + 1) mod 2 ^ 64).

Definition Write (d : digest) (p : list Z) : digest :=
  fold_left write_byte p d.

(** [binary.BigEndian.PutUint64] / [PutUint32] *)
Definition be_bytes (n : nat) (v : Z) : list Z :=
  map (fun i => Z.land (Z.shiftr v (8 * Z.of_nat i)) 0xff) (rev (seq 0 n)).

(** A 1 bit, 0 bits up to 56 bytes mod 64, then the length in bits. *)
Definition padding (l : Z) : list Z :=
  let t := if l mod 64 <? 56 then 56 - l mod 64 else 64 + 56 - l mod 64 in
  0x80 :: repeat 0 (Z.to_nat t - 1) ++ be_bytes 8 ((l * 8) mod 2 ^ 64).

Definition output (s : words8) : list Z :=
  let '(W8 a b c d e f g h) := s in
  be_bytes 4 a ++ be_bytes 4 b ++ be_bytes 4 c ++ be_bytes 4 d ++
  be_bytes 4 e ++ be_bytes 4 f ++ be_bytes 4 g ++ be_bytes 4 h.

Definition checkSum (d : digest) : list Z :=
  output (h (Write d (padding (len d)))).

(** [h.Sum(nil)]: the digest bytes in a fresh slice. *)
Definition Sum (d : digest) : list Z := checkSum d.

End SHA256.

(** The bytes of a Go string. *)
Fixpoint bytes_of_string (s : string) : list Z :=
  match s with
  | EmptyString => []
  | String c s' => Z.of_N (N_of_ascii c) :: bytes_of_string s'
  end.

(** ** Go run-time behaviour *)

(** The ways an operation can fail.  [InvalidParameters] is the construction
    error of the specification's taxonomy; the others are Go's run-time
    panics (index out of range, slice bounds out of range, integer divide by
    zero, makeslice: len out of range). *)
Inductive failure : Type :=
| InvalidParameters
| IndexOutOfRange
| SliceBoundsOutOfRange
| DivideByZero
| LenOutOfRange.

Inductive outcome (A : Type) : Type :=
| Returned (a : A)
| Failed (f : failure).
Arguments Returned {A} a.
Arguments Failed {A} f.

Definition MaxInt : Z := 2 ^ 63 - 1.
Definition MinInt : Z := - 2 ^ 63.
Definition MaxUint : Z := 2 ^ 64 - 1.

(** Arithmetic of [int] and of [uint]/[uint64] wraps around. *)
Definition wrap_int (z : Z) : Z := (z + 2 ^ 63) mod 2 ^ 64 - 2 ^ 63.
Definition wrap_uint (z : Z) : Z := z mod 2 ^ 64.

(** [make([]T, n)] for [n] of type [uint]: a slice of [n] zero values; the
    run time panics when [n] does not fit an [int]. *)
Definition make {A : Type} (zero : A) (n : Z) : outcome (list A) :=
  if n <=? MaxInt then Returned (replicate (Z.to_nat n) zero)
  else Failed LenOutOfRange.

(** [append(arr[:n], b)], where the capacity of [arr[:n]] is the length of
    the backing array [arr].  While the capacity allows, [append] stores [b]
    in the backing array itself, behind the slice; otherwise it copies the
    slice to a new array.  The result is the backing array after the call
    and the bytes of the slice [append] returns. *)
Definition append_byte (arr : list Z) (n : nat) (b : Z) : list Z * list Z :=
  if (n <? length arr)%nat
  then let arr' := <[n := b]> arr in (arr', take (S n) arr')
  else (arr, take n arr ++ [b]).

(** The unsigned integer a byte sequence spells, most significant byte
    first. *)
Definition big_endian (bs : list Z) : Z :=
  fold_left (fun v x => Z.lor (Z.shiftl v 8) x) bs 0.

(** [binary.BigEndian.Uint64(b)]: the first eight bytes of [b]; [b[7]] must
    exist. *)
Definition Uint64 (b : list Z) : outcome Z :=
  if (8 <=? length b)%nat
  then Returned (big_endian (take 8 b))
  else Failed IndexOutOfRange.

(** ** The filter *)

(** [h := sha256.New(); h.Write([]byte(item)); hash := h.Sum(nil)] *)
Definition digest_of (item : string) : list Z :=
  SHA256.Sum (SHA256.Write SHA256.New (bytes_of_string item)).

(** [type BloomFilter struct].  The mutex [mu] carries no data. *)
Record BloomFilter : Type := mkBloomFilter {
  m : Z;              (* uint: size of bit array *)
  k : Z;              (* uint: number of hash functions *)
  bits : list bool;   (* []bool: bit array *)
  items : Z           (* int: count of items added *)
}.

(** The body of the loop of [getHashValues] for slot [i], on a filter of
    [size] bits: the value stored in [result[i]], and the digest's backing
    array after the [append].  [hash[:8]] needs eight bytes of capacity;
    [byte(i)] keeps the low eight bits of [i]; the conversions [uint64(bf.m)]
    and [uint(...)] are between types of the same width. *)
Definition hash_slot (size : Z) (hash : list Z) (i : Z) : list Z * outcome Z :=
  if (8 <=? length hash)%nat then
    let '(hash', b) := append_byte hash 8 (i mod 256) in
    match Uint64 b with
    | Returned value =>
        if size =? 0 then (hash', Failed DivideByZero)
        else (hash', Returned (value mod size))
    | Failed f => (hash', Failed f)
    end
  else (hash, Failed SliceBoundsOutOfRange).

(** [for i := uint(0); i < bf.k; i++ { ... result[i] = ... }], with [n]
    iterations left. *)
Fixpoint hash_loop (size : Z) (n : nat) (i : Z) (hash : list Z) (result : list Z)
  : outcome (list Z) :=
  match n with
  | O => Returned result
  | S n' =>
      match hash_slot size hash i with
      | (hash', Returned v) =>
          hash_loop size n' (i + 1) hash' (<[Z.to_nat i := v]> result)
      | (_, Failed f) => Failed f
      end
  end.

(** [getHashValues] generates k hash values for an item. *)
Definition getHashValues (bf : BloomFilter) (item : string) : outcome (list Z) :=
  let hash := digest_of item in
  match make 0 (k bf) with
  | Returned result => hash_loop (m bf) (Z.to_nat (k bf)) 0 hash result
  | Failed f => Failed f
  end.

(** [for _, hash := range hashes { bf.bits[hash] = true }]: the bit array
    the loop leaves, also when an index is out of range. *)
Fixpoint set_bits (bs : list bool) (hashes : list Z) : list bool * outcome unit :=
  match hashes with
  | [] => (bs, Returned tt)
  | hash :: rest =>
      if (0 <=? hash) && (hash <? Z.of_nat (length bs))
      then set_bits (<[Z.to_nat hash := true]> bs) rest
      else (bs, Failed IndexOutOfRange)
  end.

(** [Add] adds an item to the Bloom filter. *)
Definition Add (bf : BloomFilter) (item : string) : BloomFilter * outcome unit :=
  match getHashValues bf item with
  | Returned hashes =>
      match set_bits (bits bf) hashes with
      | (bs, Returned _) =>
          (mkBloomFilter (m bf) (k bf) bs (wrap_int (items bf + 1)), Returned tt)
      | (bs, Failed f) =>
          (mkBloomFilter (m bf) (k bf) bs (items bf), Failed f)
      end
  | Failed f => (bf, Failed f)
  end.

(** [for _, hash := range hashes { if !bf.bits[hash] { return false } }] *)
Fixpoint all_set (bs : list bool) (hashes : list Z) : outcome bool :=
  match hashes with
  | [] => Returned true
  | hash :: rest =>
      if (0 <=? hash) && (hash <? Z.of_nat (length bs))
      then match bs !! Z.to_nat hash with
           | Some true => all_set bs rest
           | _ => Returned false
           end
      else Failed IndexOutOfRange
  end.

(** [Contains] checks if an item might be in the Bloom filter. *)
Definition Contains (bf : BloomFilter) (item : string) : outcome bool :=
  match getHashValues bf item with
  | Returned hashes => all_set (bits bf) hashes
  | Failed f => Failed f
  end.

(** [Reset] clears the Bloom filter. *)
Definition Reset (bf : BloomFilter) : BloomFilter * outcome unit :=
  match make false (m bf) with
  | Returned bs => (mkBloomFilter (m bf) (k bf) bs 0, Returned tt)
  | Failed f => (bf, Failed f)
  end.

(** [for _, bit := range bf.bits { if bit { setBits++ } }] *)
Definition count_bit (setBits : Z) (bit : bool) : Z :=
  if bit then wrap_int (setBits + 1) else setBits.

Definition countSet (bs : list bool) : Z := fold_left count_bit bs 0.

(** The struct literal [NewBloomFilter] returns, for the sizes it computed. *)
Definition construct (size hashes : Z) : outcome BloomFilter :=
  match make false size with
  | Returned bs => Returned (mkBloomFilter size hashes bs 0)
  | Failed f => Failed f
  end.

(** The map [Stats] returns, one field per key. *)
Record snapshot (float64 : Type) : Type := mkSnapshot {
  size : Z;
  hashFunctions : Z;
  itemsAdded : Z;
  bitsSet : Z;
  fillRatio : float64;
  falsePositiveRate : float64
}.
Arguments mkSnapshot {float64}.
Arguments size {float64}.
Arguments hashFunctions {float64}.
Arguments itemsAdded {float64}.
Arguments bitsSet {float64}.
Arguments fillRatio {float64}.
Arguments falsePositiveRate {float64}.

(** Go's [float64] and package [math] are outside the repository: the type,
    its conversions and arithmetic, and [math.Log], [math.Pow], [math.Ceil]
    are parameters of the two functions that compute with them.  The
    constant 2 of the source is [of_int 2]; [uint(f)] is [to_uint f] brought
    into the range of [uint]. *)
Section Float64.

Variable float64 : Type.
Variable of_int : Z -> float64.     (* float64(x), x of type int *)
Variable of_uint : Z -> float64.    (* float64(x), x of type uint *)
Variable to_uint : float64 -> Z.    (* uint(f) *)
Variable fneg : float64 -> float64.
Variable fmul fdiv : float64 -> float64 -> float64.
Variable Log Ceil : float64 -> float64.
Variable Pow : float64 -> float64 -> float64.

(** The size of the bit array and the hash count [NewBloomFilter] derives. *)
Definition optimal_m (expectedItems : Z) (falsePositiveRate : float64) : Z :=
  wrap_uint (to_uint (Ceil
    (fdiv (fmul (fneg (of_int expectedItems)) (Log falsePositiveRate))
          (Pow (Log (of_int 2)) (of_int 2))))).

Definition optimal_k (expectedItems : Z) (size : Z) : Z :=
  wrap_uint (to_uint (Ceil
    (fdiv (fmul (Log (of_int 2)) (of_uint size)) (of_int expectedItems)))).

(** [NewBloomFilter] creates a new Bloom filter with optimal size and hash
    count. *)
Definition NewBloomFilter (expectedItems : Z) (falsePositiveRate : float64)
  : outcome BloomFilter :=
  let size := optimal_m expectedItems falsePositiveRate in
  let hashes := optimal_k expectedItems size in
  construct size hashes.

(** [Stats] returns statistics about the Bloom filter. *)
Definition Stats (bf : BloomFilter) : snapshot float64 :=
  let setBits := countSet (bits bf) in
  let ratio := fdiv (of_int setBits) (of_uint (m bf)) in
  let rate := Pow ratio (of_uint (k bf)) in
  mkSnapshot (m bf) (k bf) (items bf) setBits ratio rate.

End Float64.

(** ** Sequences of operations *)

Inductive Op : Type :=
| OpAdd (item : string)
| OpContains (item : string)
| OpStats
| OpReset.

(** The filter an operation leaves behind.  [Contains] and [Stats] only
    read; a panic inside a request handler is recovered by the HTTP server,
    so the filter lives on as the panicking operation left it. *)
Definition step (bf : BloomFilter) (op : Op) : BloomFilter :=
  match op with
  | OpAdd item => fst (Add bf item)
  | OpContains _ => bf
  | OpStats => bf
  | OpReset => fst (Reset bf)
  end.

Definition run (bf : BloomFilter) (ops : list Op) : BloomFilter :=
  fold_left step ops bf.

Definition is_reset (op : Op) : bool :=
  match op with OpReset => true | _ => false end.

Definition is_add (op : Op) : bool :=
  match op with OpAdd _ => true | _ => false end.

(** ** The index derivation the specification describes *)

(** The two-hash combination, after the words of the specification's
    section 4.3, for comparison with [getHashValues]: the [i]-th index
    (for [i = 0 .. k-1]) is [(h1 + i * h2) mod m]. *)
Definition twoHashIndices (h1 h2 size : Z) (n : nat) : list Z :=
  map (fun i => (h1 + Z.of_nat i * h2) mod size) (seq 0 n).

(** The split the specification gives as its example: the first and the
    second half of the digest, each taken as it is. *)
Definition digest_halves (hash : list Z) : Z * Z :=
  (big_endian (take 16 hash), big_endian (drop 16 hash)).

(** A split that agrees with the source on [h1]: the eight bytes the source
    reads, and the eight bytes after them. *)
Definition digest_words (hash : list Z) : Z * Z :=
  (big_endian (take 8 hash), big_endian (take 8 (drop 8 hash))).

(** ** Auxiliary notions for the properties *)

(** What the loop leaves in [result]: [n] consecutive slots from [i] on hold
    the same value. *)
Fixpoint fill (n : nat) (i : nat) (v : Z) (result : list Z) : list Z :=
  match n with
  | O => result
  | S n' => fill n' (S i) v (<[i := v]> result)
  end.

(** What the specification says of index derivation, for a given way to
    split the digest into [h1] and [h2]: the sequence [getHashValues]
    returns is the two-hash sequence. *)
Definition two_hash_claim (split : list Z -> Z * Z)
    (bf : BloomFilter) (item : string) : Prop :=
  getHashValues bf item =
    Returned (twoHashIndices (split (digest_of item)).1
                             (split (digest_of item)).2
                             (m bf) (Z.to_nat (k bf))).

(** [bf'] has the parameters of [bf], a bit array of the same length, and
    every bit that is set in [bf]. *)
Definition grows (bf bf' : BloomFilter) : Prop :=
  m bf' = m bf /\ k bf' = k bf /\
  length (bits bf') = length (bits bf) /\
  forall j : nat, bits bf !! j = Some true -> bits bf' !! j = Some true.

(** A filter as construction leaves it and every operation keeps it: [m] is
    positive and the length of the bit array, and both [m] and [k] fit a
    slice length. *)
Definition well_formed (bf : BloomFilter) : Prop :=
  1 <= m bf <= MaxInt /\ 0 <= k bf <= MaxInt /\
  Z.of_nat (length (bits bf)) = m bf.

(** The number of [Add] calls in a sequence of operations. *)
Definition count_adds (ops : list Op) : Z :=
  Z.of_nat (length (filter (fun op => is_add op = true) ops)).

(** An item is absorbed by a filter when adding it again finds all its
    bits set. *)
Definition absorbed (bf : BloomFilter) (x : string) : Prop :=
  exists hashes : list Z,
    getHashValues bf x = Returned hashes /\
    set_bits (bits bf) hashes = (bits bf, Returned tt).

(** The bit array has exactly [m] entries. *)
Definition shaped (bf : BloomFilter) : Prop :=
  0 <= m bf /\ Z.of_nat (length (bits bf)) = m bf.

(** All bits are clear and nothing is counted. *)
Definition cleared (bf : BloomFilter) : Prop :=
  bits bf = replicate (Z.to_nat (m bf)) false /\ items bf = 0.

(** [x] lies between the floating-point numbers 0 and 1. *)
Definition in_unit {float64 : Type} (fle : float64 -> float64 -> Prop)
    (of_int : Z -> float64) (x : float64) : Prop :=
  fle (of_int 0) x /\ fle x (of_int 1).

(** ** Filters and arithmetic used as concrete instances *)

(** The filter of the specification's concrete scenario: 9586 bits, 7 hash
    functions, nothing added. *)
Definition scenario_filter : BloomFilter :=
  mkBloomFilter 9586 7 (replicate (Z.to_nat 9586) false) 0.

(** The scenario's filter once ["alpha"] has been added [MaxInt] times: one
    bit is set and the counter is at the largest [int]. *)
Definition saturated_filter : BloomFilter :=
  mkBloomFilter 9586 7
    (<[Z.to_nat 3890 := true]> (replicate (Z.to_nat 9586) false)) MaxInt.

(** The saturated filter after one more [Add("alpha")]. *)
Definition wrapped_filter : BloomFilter :=
  mkBloomFilter 9586 7
    (<[Z.to_nat 3890 := true]> (replicate (Z.to_nat 9586) false)) MinInt.

(** Exact rational arithmetic, as an instance of the operations [Stats]
    needs: both conversions are the injection of the integers, and the power
    is taken at the integer part of the exponent. *)
Fixpoint Qpow_nat (x : Q) (n : nat) : Q :=
  match n with
  | O => 1%Q
  | S n' => Qmult x (Qpow_nat x n')
  end.

Definition Qpow (x y : Q) : Q := Qpow_nat x (Z.to_nat (Qfloor y)).

(** A filter that holds ["alpha"], and the operations run on it below. *)
Definition alpha_filter : BloomFilter := (Add scenario_filter "alpha").1.

Definition reads_and_adds : list Op :=
  [OpAdd "never-added"; OpContains "alpha"; OpStats; OpAdd "alpha"].

Definition reads_and_resets : list Op :=
  [OpContains "alpha"; OpStats; OpReset; OpContains "beta"].

Definition mixed_ops : list Op :=
  [OpAdd "alpha"; OpContains "alpha"; OpAdd "beta"; OpReset; OpAdd "gamma";
   OpStats].

(** ** The request handlers *)

(** [net/http] and [encoding/json] are outside the repository.  Of a request
    the handlers read the method and the body; a reply is the status code,
    the Content-Type header and what is written as the body, kept as the
    value handed to the writer or encoder. *)
Definition MethodGet : string := "GET".
Definition MethodPost : string := "POST".
Definition StatusOK : Z := 200.
Definition StatusBadRequest : Z := 400.
Definition StatusMethodNotAllowed : Z := 405.

Record Request : Type := mkRequest {
  Method : string;
  Body : list Z
}.

Inductive payload (float64 : Type) : Type :=
| Text (msg : string)                    (* http.Error's message *)
| Flags (fields : list (string * bool))  (* a map[string]bool, encoded *)
| Numbers (stats : snapshot float64).    (* the map Stats returns, encoded *)
Arguments Text {float64} msg.
Arguments Flags {float64} fields.
Arguments Numbers {float64} stats.

Record Response (float64 : Type) : Type := mkResponse {
  StatusCode : Z;
  ContentType : string;
  Payload : payload float64
}.
Arguments mkResponse {float64}.
Arguments StatusCode {float64}.
Arguments ContentType {float64}.
Arguments Payload {float64}.

(** [http.Error(w, msg, code)] *)
Definition http_Error {float64 : Type} (msg : string) (code : Z) : Response float64 :=
  mkResponse code "text/plain; charset=utf-8" (Text msg).

(** [w.Header().Set("Content-Type", "application/json")] followed by
    [json.NewEncoder(w).Encode(v)]: the first write sends status 200. *)
Definition json_reply {float64 : Type} (v : payload float64) : Response float64 :=
  mkResponse StatusOK "application/json" v.

(** The paths [main] registers, one per handler. *)
Inductive endpoint : Type :=
| ApiAdd      (* /api/add *)
| ApiCheck    (* /api/check *)
| ApiStats    (* /api/stats *)
| ApiReset.   (* /api/reset *)

(** The handlers work on [globalBloomFilter]: each takes the filter and
    returns the filter it leaves with its reply, or with the panic that
    ended it.  [Decode] stands for
    [json.NewDecoder(r.Body).Decode(&req)] on the struct with the one field
    [Item]: [None] is a non-nil error, [Some item] the decoded field. *)
Section Handlers.

Variable float64 : Type.
Variables of_int of_uint : Z -> float64.
Variables fdiv Pow : float64 -> float64 -> float64.
Variable Decode : list Z -> option string.

Definition handleAdd (bf : BloomFilter) (r : Request)
  : BloomFilter * outcome (Response float64) :=
  if negb (String.eqb (Method r) MethodPost)
  then (bf, Returned (http_Error "Method not allowed" StatusMethodNotAllowed))
  else match Decode (Body r) with
       | None => (bf, Returned (http_Error "Invalid request" StatusBadRequest))
       | Some item =>
           match Add bf item with
           | (bf', Returned _) =>
               (bf', Returned (json_reply (Flags [("success"%string, true)])))
           | (bf', Failed f) => (bf', Failed f)
           end
       end.

Definition handleCheck (bf : BloomFilter) (r : Request)
  : BloomFilter * outcome (Response float64) :=
  if negb (String.eqb (Method r) MethodPost)
  then (bf, Returned (http_Error "Method not allowed" StatusMethodNotAllowed))
  else match Decode (Body r) with
       | None => (bf, Returned (http_Error "Invalid request" StatusBadRequest))
       | Some item =>
           match Contains bf item with
           | Returned contains =>
               (bf, Returned (json_reply (Flags [("exists"%string, contains)])))
           | Failed f => (bf, Failed f)
           end
       end.

Definition handleStats (bf : BloomFilter) (r : Request)
  : BloomFilter * outcome (Response float64) :=
  if negb (String.eqb (Method r) MethodGet)
  then (bf, Returned (http_Error "Method not allowed" StatusMethodNotAllowed))
  else (bf, Returned (json_reply
                        (Numbers (Stats float64 of_int of_uint fdiv Pow bf)))).

Definition handleReset (bf : BloomFilter) (r : Request)
  : BloomFilter * outcome (Response float64) :=
  if negb (String.eqb (Method r) MethodPost)
  then (bf, Returned (http_Error "Method not allowed" StatusMethodNotAllowed))
  else match Reset bf with
       | (bf', Returned _) =>
           (bf', Returned (json_reply (Flags [("success"%string, true)])))
       | (bf', Failed f) => (bf', Failed f)
       end.

(** One request to one of the registered paths. *)
Definition serve (bf : BloomFilter) (q : endpoint * Request)
  : BloomFilter * outcome (Response float64) :=
  match q.1 with
  | ApiAdd => handleAdd bf q.2
  | ApiCheck => handleCheck bf q.2
  | ApiStats => handleStats bf q.2
  | ApiReset => handleReset bf q.2
  end.

(** The filter after a sequence of requests; a handler that panicked is
    recovered by the server and the next request finds the filter as it was
    left. *)
Definition serve_all (bf : BloomFilter) (qs : list (endpoint * Request))
  : BloomFilter :=
  fold_left (fun bf q => (serve bf q).1) qs bf.

End Handlers.

(** A request that resets the filter: a POST to /api/reset. *)
Definition resets (q : endpoint * Request) : bool :=
  match q.1 with
  | ApiReset => String.eqb (Method q.2) MethodPost
  | _ => false
  end.

(** A request that may add an item: a POST to /api/add. *)
Definition adds (q : endpoint * Request) : bool :=
  match q.1 with
  | ApiAdd => String.eqb (Method q.2) MethodPost
  | _ => false
  end.

(** The method each handler accepts. *)
Definition accepted_method (ep : endpoint) : string :=
  match ep with
  | ApiStats => MethodGet
  | _ => MethodPost
  end.

(** ** Further notions for the properties *)

(** The one position of the bit array an item is mapped to. *)
Definition slot (bf : BloomFilter) (x : string) : Z :=
  big_endian (take 8 (digest_of x)) mod m bf.

(** The number of set bits, counted without an [int]. *)
Fixpoint count_true (bs : list bool) : nat :=
  match bs with
  | [] => O
  | b :: bs' => ((if b then 1 else 0) + count_true bs')%nat
  end.

(** A decoder used as an instance: it accepts a body that is exactly
    [{"item":"..."}] with no quote or backslash inside the item, and
    nothing else. *)
Fixpoint plain_item (bs : list Z) : option string :=
  match bs with
  | [] => None
  | b :: rest =>
      if b =? 34 then (match rest with [125] => Some EmptyString | _ => None end)
      else if b =? 92 then None
      else match plain_item rest with
           | Some s => Some (String (ascii_of_N (Z.to_N b)) s)
           | None => None
           end
  end.

(** The nine bytes such a body opens with, up to and including the quote
    before the item, and the body that carries an item. *)
Definition item_prefix : list Z := [123; 34; 105; 116; 101; 109; 34; 58; 34].

Definition item_body (item : string) : list Z :=
  item_prefix ++ bytes_of_string item ++ [34; 125].

Definition decode_item_object (body : list Z) : option string :=
  if decide (take 9 body = item_prefix)
  then plain_item (drop 9 body)
  else None.

(** Filters and requests used as instances for the further properties. *)
Definition sizeless_filter : BloomFilter := mkBloomFilter 0 3 [] 0.

Definition hashless_filter : BloomFilter :=
  mkBloomFilter 16 0 (replicate (Z.to_nat 16) false) 0.

Definition post_item (item : string) : Request :=
  mkRequest MethodPost (item_body item).

Definition post_empty : Request := mkRequest MethodPost [].

Definition get_empty : Request := mkRequest MethodGet [].

Definition reads_between : list (endpoint * Request) :=
  [(ApiCheck, post_item "beta"); (ApiStats, get_empty);
   (ApiAdd, post_item "gamma"); (ApiReset, get_empty)].

Definition reads_only : list (endpoint * Request) :=
  [(ApiCheck, post_item "alpha"); (ApiStats, get_empty);
   (ApiAdd, get_empty); (ApiReset, post_empty)].

(** ** SHA-256 test vectors *)

Definition hex_digit (n : Z) : ascii :=
  ascii_of_N (Z.to_N (if n <? 10 then 48 + n else 87 + n)).

Fixpoint hex (bs : list Z) : string :=
  match bs with
  | [] => EmptyString
  | b :: bs' => String (hex_digit (b / 16)) (String (hex_digit (b mod 16)) (hex bs'))
  end.

Definition sha256_hex (s : string) : string := hex (digest_of s).

(** * Properties *)

(** ** The digest *)

Example sha256_empty :
  sha256_hex "" =
  "e3b0c44298fc1c149afbf4c8996fb92427ae41e4649b934ca495991b7852b855"%string.
Proof. vm_compute. reflexivity. Qed.

Example sha256_abc :
  sha256_hex "abc" =
  "ba7816bf8f01cfea414140de5dae2223b00361a396177a9cb410ff61f20015ad"%string.
Proof. vm_compute. reflexivity. Qed.

(** A message of 56 bytes: the padding spills into a second block. *)
Example sha256_two_blocks :
  sha256_hex "abcdbcdecdefdefgefghfghighijhijkijkljklmklmnlmnomnopnopq" =
  "248d6a61d20638b8e5c026930c3e6039a33ce45964ff2167f6ecedd419db06c1"%string.
Proof. vm_compute. reflexivity. Qed.

Example sha256_alpha :
  sha256_hex "alpha" =
  "8ed3f6ad685b959ead7022518e1af76cd816f8e8ec7ccdda1ed4018e8f2223f8"%string.
Proof. vm_compute. reflexivity. Qed.

(** ** The slot loop *)

Lemma output_length (s : SHA256.words8) : length (SHA256.output s) = 32%nat.
Proof. destruct s; reflexivity. Qed.

Lemma digest_of_length (item : string) : length (digest_of item) = 32%nat.
Proof. apply output_length. Qed.

(** The value read for a slot does not depend on the slot: the appended
    byte lands at position 8, behind the eight bytes [Uint64] reads. *)
Lemma hash_slot_value (size : Z) (hash : list Z) (i : Z) :
  (9 <= length hash)%nat -> size <> 0 ->
  hash_slot size hash i =
    (<[8%nat := i mod 256]> hash, Returned (big_endian (take 8 hash) mod size)).
Proof.
  intros Hlen Hsize. unfold hash_slot, append_byte.
  destruct (Nat.leb_spec 8 (length hash)); [|lia].
  destruct (Nat.ltb_spec 8 (length hash)); [|lia].
  unfold Uint64. rewrite length_take, length_insert.
  destruct (Nat.leb_spec 8 (9 `min` length hash)); [|lia].
  rewrite take_take, take_insert by lia.
  replace (8 `min` 9)%nat with 8%nat by reflexivity.
  destruct (Z.eqb_spec size 0); [contradiction|reflexivity].
Qed.

Lemma hash_loop_fill (size : Z) (n : nat) :
  forall (i : nat) (hash result : list Z),
    (9 <= length hash)%nat -> size <> 0 ->
    hash_loop size n (Z.of_nat i) hash result =
      Returned (fill n i (big_endian (take 8 hash) mod size) result).
Proof.
  induction n as [|n IH]; intros i hash result Hlen Hsize; simpl.
  - reflexivity.
  - rewrite hash_slot_value by assumption.
    replace (Z.of_nat i + 1) with (Z.of_nat (S i)) by lia.
    rewrite IH by (rewrite ?length_insert; assumption).
    rewrite take_insert by lia. rewrite Nat2Z.id. reflexivity.
Qed.

Lemma fill_replicate (v : Z) (n : nat) :
  forall i : nat,
    fill n i v (replicate i v ++ replicate n 0) = replicate (i + n) v.
Proof.
  induction n as [|n IH]; intros i; simpl.
  - rewrite app_nil_r, Nat.add_0_r. reflexivity.
  - rewrite insert_app_r_alt by (rewrite length_replicate; lia).
    rewrite length_replicate, Nat.sub_diag. simpl.
    replace (replicate i v ++ v :: replicate n 0)
      with (replicate (S i) v ++ replicate n 0).
    + rewrite IH. f_equal. lia.
    + rewrite replicate_S_end, <- app_assoc. reflexivity.
Qed.

(** [getHashValues] returns on every filter with a non-empty bit array whose
    hash count fits a slice, and the [k] values are one and the same. *)
Lemma getHashValues_replicate (bf : BloomFilter) (item : string) :
  m bf <> 0 -> k bf <= MaxInt ->
  getHashValues bf item =
    Returned (replicate (Z.to_nat (k bf))
                        (big_endian (take 8 (digest_of item)) mod m bf)).
Proof.
  intros Hm Hk. unfold getHashValues, make.
  destruct (Z.leb_spec (k bf) MaxInt); [|lia].
  rewrite (hash_loop_fill (m bf) (Z.to_nat (k bf)) 0)
    by (rewrite ?digest_of_length; solve [lia | assumption]).
  f_equal. apply (fill_replicate _ _ 0).
Qed.

(** ** Bit setting and testing *)

Lemma set_bits_length (hashes : list Z) :
  forall bs : list bool, length (set_bits bs hashes).1 = length bs.
Proof.
  induction hashes as [|h rest IH]; intros bs; simpl; [reflexivity|].
  destruct ((0 <=? h) && (h <? Z.of_nat (length bs))); [|reflexivity].
  rewrite IH. apply length_insert.
Qed.

Lemma insert_true_keeps (bs : list bool) (i j : nat) :
  bs !! j = Some true -> <[i := true]> bs !! j = Some true.
Proof.
  intros Hj. destruct (decide (i = j)) as [->|Hne].
  - apply list_lookup_insert_eq. eapply lookup_lt_Some; eassumption.
  - rewrite list_lookup_insert_ne by assumption. assumption.
Qed.

(** [Add]'s loop only ever stores [true]: a set bit stays set, whether the
    loop runs to its end or panics on the way. *)
Lemma set_bits_keeps (hashes : list Z) :
  forall (bs : list bool) (j : nat),
    bs !! j = Some true -> (set_bits bs hashes).1 !! j = Some true.
Proof.
  induction hashes as [|h rest IH]; intros bs j Hj; simpl; [assumption|].
  destruct ((0 <=? h) && (h <? Z.of_nat (length bs))); [|assumption].
  apply IH, insert_true_keeps, Hj.
Qed.

(** When the loop runs to its end, every index was in range and its bit is
    set afterwards. *)
Lemma set_bits_returned (hashes : list Z) :
  forall bs bs' : list bool,
    set_bits bs hashes = (bs', Returned tt) ->
    Forall (fun h => 0 <= h < Z.of_nat (length bs') /\
                     bs' !! Z.to_nat h = Some true) hashes.
Proof.
  induction hashes as [|h rest IH]; intros bs bs' Hset; simpl in Hset.
  - constructor.
  - destruct (Z.leb_spec 0 h); simpl in Hset; [|discriminate].
    destruct (Z.ltb_spec h (Z.of_nat (length bs))); [|discriminate].
    assert (Hfst : bs' = (set_bits (<[Z.to_nat h := true]> bs) rest).1)
      by (rewrite Hset; reflexivity).
    assert (Hlen : length bs' = length bs)
      by (rewrite Hfst, set_bits_length; apply length_insert).
    constructor.
    + split; [lia|]. rewrite Hfst. apply set_bits_keeps.
      apply list_lookup_insert_eq. lia.
    + eapply IH; eassumption.
Qed.

Lemma all_set_true (bs : list bool) (hashes : list Z) :
  Forall (fun h => 0 <= h < Z.of_nat (length bs) /\
                   bs !! Z.to_nat h = Some true) hashes ->
  all_set bs hashes = Returned true.
Proof.
  induction 1 as [|h rest [Hrange Hbit] _ IH]; simpl; [reflexivity|].
  destruct (Z.leb_spec 0 h); [|lia].
  destruct (Z.ltb_spec h (Z.of_nat (length bs))); [|lia].
  simpl. rewrite Hbit. exact IH.
Qed.

(** Setting bits that are set already changes nothing. *)
Lemma set_bits_idempotent (hashes : list Z) (bs : list bool) :
  Forall (fun h => 0 <= h < Z.of_nat (length bs) /\
                   bs !! Z.to_nat h = Some true) hashes ->
  set_bits bs hashes = (bs, Returned tt).
Proof.
  induction 1 as [|h rest [Hrange Hbit] _ IH]; simpl; [reflexivity|].
  destruct (Z.leb_spec 0 h); [|lia].
  destruct (Z.ltb_spec h (Z.of_nat (length bs))); [|lia].
  simpl. rewrite list_insert_id by assumption. exact IH.
Qed.

(** The hash values depend on the filter through [m] and [k] only. *)
Lemma getHashValues_params (bf bf' : BloomFilter) (item : string) :
  m bf' = m bf -> k bf' = k bf ->
  getHashValues bf' item = getHashValues bf item.
Proof. intros Hm Hk. unfold getHashValues. rewrite Hm, Hk. reflexivity. Qed.

(** ** What a step preserves *)

Lemma grows_refl (bf : BloomFilter) : grows bf bf.
Proof. repeat split; auto. Qed.

Lemma grows_trans (bf1 bf2 bf3 : BloomFilter) :
  grows bf1 bf2 -> grows bf2 bf3 -> grows bf1 bf3.
Proof.
  intros (Hm1 & Hk1 & Hl1 & Hb1) (Hm2 & Hk2 & Hl2 & Hb2).
  repeat split; try congruence. auto.
Qed.

Lemma Add_grows (bf : BloomFilter) (item : string) : grows bf (Add bf item).1.
Proof.
  unfold Add. destruct (getHashValues bf item) as [hashes|f]; [|apply grows_refl].
  pose proof (set_bits_length hashes (bits bf)) as Hlen.
  pose proof (set_bits_keeps hashes (bits bf)) as Hkeep.
  destruct (set_bits (bits bf) hashes) as [bs [[]|f]]; simpl in *;
    repeat split; auto.
Qed.

Lemma step_grows (bf : BloomFilter) (op : Op) :
  is_reset op = false -> grows bf (step bf op).
Proof.
  destruct op; simpl; intros Hop; try discriminate;
    auto using grows_refl, Add_grows.
Qed.

Lemma run_grows (ops : list Op) :
  forall bf : BloomFilter,
    forallb (fun op => negb (is_reset op)) ops = true -> grows bf (run bf ops).
Proof.
  induction ops as [|op ops IH]; intros bf Hops; simpl in *.
  - apply grows_refl.
  - apply andb_prop in Hops as [Hop Hops].
    eapply grows_trans; [apply step_grows|apply IH, Hops].
    destruct (is_reset op); [discriminate|reflexivity].
Qed.

(** ** No false negatives *)

(** C1. No false negatives: when [Add(x)] has completed and no [Reset]
    occurs among the operations that follow it, a subsequent [Contains(x)]
    returns true. *)
Theorem no_false_negatives (bf bf1 : BloomFilter) (x : string) (ops : list Op) :
  Add bf x = (bf1, Returned tt) ->
  forallb (fun op => negb (is_reset op)) ops = true ->
  Contains (run bf1 ops) x = Returned true.
Proof.
  intros HAdd Hops.
  destruct (run_grows ops bf1 Hops) as (Hm' & Hk' & Hlen' & Hbits').
  unfold Add in HAdd.
  destruct (getHashValues bf x) as [hashes|f] eqn:Hhashes; [|discriminate].
  destruct (set_bits (bits bf) hashes) as [bs [[]|f]] eqn:Hset; [|discriminate].
  injection HAdd as <-. simpl in Hm', Hk', Hlen', Hbits'.
  apply set_bits_returned in Hset.
  unfold Contains.
  rewrite (getHashValues_params bf) by assumption.
  rewrite Hhashes. apply all_set_true.
  eapply Forall_impl; [exact Hset|].
  intros h [Hrange Hbit]. simpl. rewrite Hlen'. auto.
Qed.

(** ** Index derivation *)

(** C3. For every item and every pair of positions [i], [j] in [0 .. k-1],
    the [i]-th and the [j]-th derived index are equal: the appended slot byte
    does not reach the eight bytes the 64-bit value is read from, so all [k]
    indices of an item are [Uint64(digest[0..7]) mod m]. *)
Theorem getHashValues_slots_equal (bf : BloomFilter) (item : string) :
  0 < m bf -> k bf <= MaxInt ->
  exists (hashes : list Z) (value : Z),
    getHashValues bf item = Returned hashes /\
    length hashes = Z.to_nat (k bf) /\
    Uint64 (take 8 (digest_of item)) = Returned value /\
    forall i j : Z, 0 <= i < k bf -> 0 <= j < k bf ->
      hashes !! Z.to_nat i = Some (value mod m bf) /\
      hashes !! Z.to_nat j = hashes !! Z.to_nat i.
Proof.
  intros Hm Hk.
  exists (replicate (Z.to_nat (k bf))
                    (big_endian (take 8 (digest_of item)) mod m bf)).
  exists (big_endian (take 8 (digest_of item))).
  split; [apply getHashValues_replicate; lia|].
  split; [apply length_replicate|].
  split.
  - unfold Uint64. rewrite length_take, digest_of_length, take_take. reflexivity.
  - intros i j Hi Hj.
    rewrite !lookup_replicate_2 by lia. split; reflexivity.
Qed.

(** Every derived index addresses a bit of the array. *)
Lemma getHashValues_in_range (bf : BloomFilter) (item : string) (hashes : list Z) :
  0 < m bf ->
  getHashValues bf item = Returned hashes ->
  Forall (fun h => 0 <= h < m bf) hashes.
Proof.
  intros Hm Hret.
  destruct (Z.leb_spec (k bf) MaxInt) as [Hk|Hk].
  - rewrite getHashValues_replicate in Hret by lia.
    injection Hret as <-. apply Forall_replicate.
    apply Z.mod_pos_bound, Hm.
  - unfold getHashValues, make in Hret.
    destruct (Z.leb_spec (k bf) MaxInt); [lia|discriminate].
Qed.

(** C2, as the source has it.  Index derivation yields an ordered sequence of
    [k] integers, each in [[0, m)]; the index at position 0 is the value the
    two-hash combination gives there, [(h1 + 0 * h2) mod m], with [h1] the
    first eight digest bytes read as a big-endian integer, whatever [h2]
    is. *)
Theorem getHashValues_sequence (bf : BloomFilter) (item : string) :
  0 < m bf -> k bf <= MaxInt ->
  exists hashes : list Z,
    getHashValues bf item = Returned hashes /\
    length hashes = Z.to_nat (k bf) /\
    Forall (fun h => 0 <= h < m bf) hashes /\
    forall h2 : Z,
      hashes !! 0%nat =
      twoHashIndices (digest_words (digest_of item)).1 h2 (m bf)
                     (Z.to_nat (k bf)) !! 0%nat.
Proof.
  intros Hm Hk.
  pose proof (getHashValues_replicate bf item) as Hret.
  eexists. split; [apply Hret; lia|].
  split; [apply length_replicate|].
  split; [apply Forall_replicate, Z.mod_pos_bound, Hm|].
  intros h2. unfold twoHashIndices.
  destruct (Z.to_nat (k bf)) as [|n]; simpl; [reflexivity|].
  rewrite Z.add_0_r. reflexivity.
Qed.

(** The two-hash combination agrees with the source on a filter with at
    least two hash functions only when [m] divides [h2]. *)
Lemma two_hash_degenerate (bf : BloomFilter) (item : string) (h1 h2 : Z) :
  0 < m bf -> 2 <= k bf <= MaxInt ->
  getHashValues bf item =
    Returned (twoHashIndices h1 h2 (m bf) (Z.to_nat (k bf))) ->
  h2 mod m bf = 0.
Proof.
  intros Hm Hk Hret.
  rewrite getHashValues_replicate in Hret by lia.
  injection Hret as Heq.
  assert (H0 : twoHashIndices h1 h2 (m bf) (Z.to_nat (k bf)) !! 0%nat =
               Some (h1 mod m bf)).
  { unfold twoHashIndices. destruct (Z.to_nat (k bf)) as [|n] eqn:E; [lia|].
    simpl. rewrite Z.add_0_r. reflexivity. }
  assert (H1 : twoHashIndices h1 h2 (m bf) (Z.to_nat (k bf)) !! 1%nat =
               Some ((h1 + h2) mod m bf)).
  { unfold twoHashIndices.
    destruct (Z.to_nat (k bf)) as [|[|n]] eqn:E; [lia|lia|].
    simpl. rewrite Z.mul_1_l. reflexivity. }
  rewrite <- Heq in H0, H1.
  rewrite lookup_replicate_2 in H0 by lia.
  rewrite lookup_replicate_2 in H1 by lia.
  injection H0 as H0. injection H1 as H1.
  assert (Hsub : ((h1 + h2) mod m bf - h1 mod m bf) mod m bf = 0)
    by (rewrite <- H0, <- H1, Z.sub_diag; apply Z.mod_0_l; lia).
  rewrite <- Zminus_mod in Hsub.
  replace (h1 + h2 - h1) with h2 in Hsub by lia. exact Hsub.
Qed.

(** Counterexample to C2.  On the scenario's filter the item ["alpha"] gets
    the index 3890 seven times; the two-hash combination gives seven
    different indices, both with the halves of the digest and with its first
    two 64-bit words for [h1] and [h2]. *)
Lemma two_hash_claim_fails :
  getHashValues scenario_filter "alpha" =
    Returned [3890; 3890; 3890; 3890; 3890; 3890; 3890] /\
  ~ two_hash_claim digest_halves scenario_filter "alpha" /\
  ~ two_hash_claim digest_words scenario_filter "alpha".
Proof.
  split; [vm_compute; reflexivity|].
  split; intros H; vm_compute in H; discriminate H.
Qed.

(** ** False positives *)

(** ["item9"] and ["item480"] share their one index on the scenario's
    filter, so adding the first makes the filter report the second, which
    was never added. *)
Example false_positive_after_one_add :
  getHashValues scenario_filter "item9" =
    getHashValues scenario_filter "item480" /\
  Contains scenario_filter "item480" = Returned false /\
  Contains (Add scenario_filter "item9").1 "item480" = Returned true.
Proof. repeat split; vm_compute; reflexivity. Qed.

(** ** Well-formed filters *)

Lemma set_bits_in_range (hashes : list Z) :
  forall bs : list bool,
    Forall (fun h => 0 <= h < Z.of_nat (length bs)) hashes ->
    exists bs', set_bits bs hashes = (bs', Returned tt).
Proof.
  induction hashes as [|h rest IH]; intros bs Hall; simpl.
  - eauto.
  - inversion Hall as [|? ? Hh Hrest]; subst.
    destruct (Z.leb_spec 0 h); [|lia].
    destruct (Z.ltb_spec h (Z.of_nat (length bs))); [|lia].
    simpl. apply IH. rewrite length_insert. exact Hrest.
Qed.

(** On a well-formed filter [Add] returns: it sets bits and counts the call
    in [int] arithmetic. *)
Lemma Add_returns (bf : BloomFilter) (item : string) :
  well_formed bf ->
  exists bs : list bool,
    Add bf item =
      (mkBloomFilter (m bf) (k bf) bs (wrap_int (items bf + 1)), Returned tt).
Proof.
  intros (Hm & Hk & Hlen). unfold Add.
  rewrite getHashValues_replicate by lia.
  destruct (set_bits_in_range
              (replicate (Z.to_nat (k bf))
                         (big_endian (take 8 (digest_of item)) mod m bf))
              (bits bf)) as [bs Hset].
  - apply Forall_replicate. rewrite Hlen. apply Z.mod_pos_bound. lia.
  - rewrite Hset. eauto.
Qed.

Lemma make_length {A : Type} (zero : A) (n : Z) (l : list A) :
  0 <= n -> make zero n = Returned l -> Z.of_nat (length l) = n.
Proof.
  intros Hn. unfold make. destruct (n <=? MaxInt); [|discriminate].
  intros [= <-]. rewrite length_replicate. lia.
Qed.

Lemma step_well_formed (bf : BloomFilter) (op : Op) :
  well_formed bf -> well_formed (step bf op).
Proof.
  intros Hwf. destruct op as [item| | |]; simpl; try assumption.
  - destruct (Add_grows bf item) as (Hm & Hk & Hlen & _).
    destruct Hwf as (? & ? & ?). unfold well_formed.
    rewrite Hm, Hk, Hlen. auto.
  - unfold Reset. destruct (make false (m bf)) as [bs|f] eqn:Hmake; [|assumption].
    destruct Hwf as (? & ? & ?). unfold well_formed. simpl.
    apply make_length in Hmake; [auto|lia].
Qed.

Lemma run_well_formed (ops : list Op) :
  forall bf : BloomFilter, well_formed bf -> well_formed (run bf ops).
Proof.
  induction ops as [|op ops IH]; intros bf Hwf; simpl; [assumption|].
  apply IH, step_well_formed, Hwf.
Qed.

Lemma construct_well_formed (size hashes : Z) (bf0 : BloomFilter) :
  1 <= size -> 0 <= hashes <= MaxInt ->
  construct size hashes = Returned bf0 -> well_formed bf0.
Proof.
  intros Hsize Hhashes. unfold construct.
  destruct (make false size) as [bs|f] eqn:Hmake; [|discriminate].
  intros [= <-]. unfold well_formed. simpl.
  split; [|split; [assumption|apply (make_length false); [lia|assumption]]].
  unfold make in Hmake. destruct (Z.leb_spec size MaxInt); [lia|discriminate].
Qed.

(** ** The counter *)

Lemma wrap_int_id (z : Z) : MinInt <= z <= MaxInt -> wrap_int z = z.
Proof.
  unfold wrap_int, MinInt, MaxInt. intros Hz.
  rewrite Z.mod_small by lia. lia.
Qed.

Lemma wrap_int_range (z : Z) : MinInt <= wrap_int z <= MaxInt.
Proof.
  unfold wrap_int, MinInt, MaxInt.
  pose proof (Z.mod_pos_bound (z + 2 ^ 63) (2 ^ 64)). lia.
Qed.

Lemma wrap_int_add_l (a b : Z) : wrap_int (wrap_int a + b) = wrap_int (a + b).
Proof.
  unfold wrap_int. f_equal.
  replace ((a + 2 ^ 63) mod 2 ^ 64 - 2 ^ 63 + b + 2 ^ 63)
    with ((a + 2 ^ 63) mod 2 ^ 64 + b) by lia.
  rewrite Zplus_mod_idemp_l. f_equal. lia.
Qed.

Lemma count_adds_cons (op : Op) (ops : list Op) :
  count_adds (op :: ops) =
    (if is_add op then 1 else 0) + count_adds ops.
Proof.
  unfold count_adds. rewrite filter_cons.
  destruct (is_add op); simpl.
  - destruct (decide (true = true)); [|contradiction]. simpl length. lia.
  - destruct (decide (false = true)); [discriminate|]. lia.
Qed.

Lemma count_adds_nonneg (ops : list Op) : 0 <= count_adds ops.
Proof. unfold count_adds. lia. Qed.

Lemma items_after_ops (ops : list Op) :
  forall bf : BloomFilter,
    well_formed bf ->
    MinInt <= items bf <= MaxInt ->
    forallb (fun op => negb (is_reset op)) ops = true ->
    items (run bf ops) = wrap_int (items bf + count_adds ops).
Proof.
  induction ops as [|op ops IH]; intros bf Hwf Hitems Hops.
  - simpl. unfold count_adds. simpl. rewrite Z.add_0_r, wrap_int_id; auto.
  - simpl in Hops. apply andb_prop in Hops as [Hop Hops].
    simpl. rewrite count_adds_cons.
    pose proof (step_well_formed bf op Hwf) as Hwf'.
    destruct op as [item| | |]; simpl in *; try discriminate.
    + destruct (Add_returns bf item Hwf) as [bs HAdd].
      rewrite HAdd in *. simpl in *.
      rewrite IH; auto; cbn [items]; [|apply wrap_int_range].
      rewrite wrap_int_add_l. f_equal. lia.
    + rewrite IH; auto.
    + rewrite IH; auto.
Qed.

(** C7, as the source has it.  Monotonic counter: on a well-formed filter,
    after a sequence of operations without [Reset] that holds [n] calls to
    [Add], duplicates or not, itemsAdded is its value before plus [n] in
    the wrap-around arithmetic of [int]; it is exactly the value before plus
    [n] whenever that sum does not exceed the largest [int]. *)
Theorem counter_after_adds (bf : BloomFilter) (ops : list Op) :
  well_formed bf ->
  MinInt <= items bf <= MaxInt ->
  forallb (fun op => negb (is_reset op)) ops = true ->
  items (run bf ops) = wrap_int (items bf + count_adds ops) /\
  (items bf + count_adds ops <= MaxInt ->
   items (run bf ops) = items bf + count_adds ops).
Proof.
  intros Hwf Hitems Hops.
  pose proof (items_after_ops ops bf Hwf Hitems Hops) as Hrun.
  split; [exact Hrun|].
  intros Hmax. rewrite Hrun. apply wrap_int_id.
  pose proof (count_adds_nonneg ops). lia.
Qed.

Lemma Add_absorbed (bf : BloomFilter) (x : string) :
  absorbed bf x ->
  Add bf x =
    (mkBloomFilter (m bf) (k bf) (bits bf) (wrap_int (items bf + 1)),
     Returned tt).
Proof.
  intros (hashes & Hhashes & Hset). unfold Add. rewrite Hhashes, Hset.
  reflexivity.
Qed.

Lemma absorbed_after_Add (bf bf1 : BloomFilter) (x : string) :
  Add bf x = (bf1, Returned tt) -> absorbed bf1 x.
Proof.
  intros HAdd. unfold Add in HAdd.
  destruct (getHashValues bf x) as [hashes|f] eqn:Hhashes; [|discriminate].
  destruct (set_bits (bits bf) hashes) as [bs [[]|f]] eqn:Hset; [|discriminate].
  injection HAdd as <-. exists hashes. split.
  - rewrite <- Hhashes. apply getHashValues_params; reflexivity.
  - simpl. apply set_bits_idempotent. eapply set_bits_returned, Hset.
Qed.

Lemma absorbed_params (bf bf' : BloomFilter) (x : string) :
  m bf' = m bf -> k bf' = k bf -> bits bf' = bits bf ->
  absorbed bf x -> absorbed bf' x.
Proof.
  intros Hm Hk Hbits (hashes & Hhashes & Hset). exists hashes.
  rewrite Hbits, (getHashValues_params bf) by assumption. auto.
Qed.

(** Adding an absorbed item [n] more times moves the counter only. *)
Lemma run_repeat_absorbed (x : string) (n : nat) :
  forall bf : BloomFilter,
    absorbed bf x ->
    MinInt <= items bf <= MaxInt ->
    run bf (replicate n (OpAdd x)) =
      mkBloomFilter (m bf) (k bf) (bits bf) (wrap_int (items bf + Z.of_nat n)).
Proof.
  induction n as [|n IH]; intros bf Habs Hitems.
  - simpl. rewrite Z.add_0_r, wrap_int_id by assumption. destruct bf; reflexivity.
  - cbn [replicate run fold_left step]. rewrite Add_absorbed by assumption.
    cbn [fst]. fold (run (mkBloomFilter (m bf) (k bf) (bits bf)
                            (wrap_int (items bf + 1))) (replicate n (OpAdd x))).
    rewrite IH.
    + cbn [m k bits items]. rewrite wrap_int_add_l. do 2 f_equal. lia.
    + eapply absorbed_params; [| | |exact Habs]; reflexivity.
    + apply wrap_int_range.
Qed.

(** The saturated filter is the scenario's filter after [MaxInt] additions
    of ["alpha"]. *)
Lemma saturated_reachable :
  exists n : nat,
    Z.of_nat n = MaxInt /\
    run scenario_filter (replicate n (OpAdd "alpha")) = saturated_filter.
Proof.
  exists (S (Z.to_nat (MaxInt - 1))).
  assert (Hn : Z.of_nat (Z.to_nat (MaxInt - 1)) = MaxInt - 1)
    by (apply Z2Nat.id; unfold MaxInt; lia).
  split; [rewrite Nat2Z.inj_succ, Hn; lia|].
  generalize dependent (Z.to_nat (MaxInt - 1)). intros n Hn.
  cbn [replicate run fold_left step].
  assert (HAdd : Add scenario_filter "alpha" =
                 (mkBloomFilter 9586 7
                    (<[Z.to_nat 3890 := true]> (replicate (Z.to_nat 9586) false)) 1,
                  Returned tt)) by (vm_compute; reflexivity).
  rewrite HAdd. cbn [fst].
  fold (run (mkBloomFilter 9586 7
               (<[Z.to_nat 3890 := true]> (replicate (Z.to_nat 9586) false)) 1)
            (replicate n (OpAdd "alpha"))).
  rewrite run_repeat_absorbed.
  - cbn [m k bits items]. unfold saturated_filter. f_equal.
    rewrite Hn. replace (1 + (MaxInt - 1)) with MaxInt by lia.
    apply wrap_int_id. unfold MinInt, MaxInt. lia.
  - eapply absorbed_after_Add, HAdd.
  - cbn [items]. unfold MinInt, MaxInt. lia.
Qed.

(** Counterexample to C7.  The saturated filter is reached from the
    scenario's filter by [MaxInt] calls to [Add]; one more call completes and
    leaves itemsAdded at the smallest [int], not at the value before
    plus 1. *)
Lemma counter_wraps_at_MaxInt :
  (exists n : nat,
     Z.of_nat n = MaxInt /\
     run scenario_filter (replicate n (OpAdd "alpha")) = saturated_filter) /\
  well_formed saturated_filter /\
  (Add saturated_filter "alpha").2 = Returned tt /\
  count_adds [OpAdd "alpha"] = 1 /\
  items (run saturated_filter [OpAdd "alpha"]) = MinInt /\
  items (run saturated_filter [OpAdd "alpha"]) <>
    items saturated_filter + count_adds [OpAdd "alpha"].
Proof.
  split; [exact saturated_reachable|].
  split; [repeat split; vm_compute; congruence|].
  split; [vm_compute; reflexivity|].
  split; [reflexivity|].
  split; [vm_compute; reflexivity|].
  vm_compute. discriminate.
Qed.

(** Counterexample to C6.  On the saturated filter, reached from the
    scenario's filter by [MaxInt] calls to [Add], two more calls of
    [Add("alpha")] complete and leave the same bits set, but the first of
    them takes itemsAdded from the largest [int] to the smallest: it does
    not increment it by 1. *)
Lemma add_twice_counter_wraps :
  (exists n : nat,
     Z.of_nat n = MaxInt /\
     run scenario_filter (replicate n (OpAdd "alpha")) = saturated_filter) /\
  Add saturated_filter "alpha" = (wrapped_filter, Returned tt) /\
  (Add wrapped_filter "alpha").2 = Returned tt /\
  countSet (bits (Add wrapped_filter "alpha").1) = countSet (bits wrapped_filter) /\
  items saturated_filter = MaxInt /\
  items wrapped_filter = MinInt /\
  items wrapped_filter <> items saturated_filter + 1.
Proof.
  split; [exact saturated_reachable|].
  split; [vm_compute; reflexivity|].
  split; [vm_compute; reflexivity|].
  split; [vm_compute; reflexivity|].
  split; [reflexivity|].
  split; [vm_compute; reflexivity|].
  vm_compute. discriminate.
Qed.

(** ** The shape of the state *)

Lemma step_shaped (bf : BloomFilter) (op : Op) :
  shaped bf -> m (step bf op) = m bf /\ shaped (step bf op).
Proof.
  intros [Hm Hlen]. destruct op as [item| | |]; simpl; try (split; [|split]; auto; fail).
  - destruct (Add_grows bf item) as (Hm' & _ & Hlen' & _).
    unfold shaped. rewrite Hm', Hlen'. auto.
  - unfold Reset. destruct (make false (m bf)) as [bs|f] eqn:Hmake.
    + simpl. unfold shaped. simpl. apply make_length in Hmake; auto.
    + simpl. unfold shaped. auto.
Qed.

Lemma run_shaped (ops : list Op) :
  forall bf : BloomFilter,
    shaped bf -> m (run bf ops) = m bf /\ shaped (run bf ops).
Proof.
  induction ops as [|op ops IH]; intros bf Hs; simpl; [auto|].
  destruct (step_shaped bf op Hs) as [Hm Hs'].
  destruct (IH _ Hs') as [Hm' Hs'']. split; [congruence|assumption].
Qed.

Lemma construct_shaped (size hashes : Z) (bf0 : BloomFilter) :
  0 <= size -> construct size hashes = Returned bf0 ->
  m bf0 = size /\ k bf0 = hashes /\ size <= MaxInt /\ shaped bf0.
Proof.
  intros Hsize. unfold construct.
  destruct (make false size) as [bs|f] eqn:Hmake; [|discriminate].
  intros [= <-]. unfold shaped. simpl.
  pose proof (make_length false size bs Hsize Hmake).
  unfold make in Hmake. destruct (Z.leb_spec size MaxInt); [|discriminate].
  auto.
Qed.

(** C9. State-shape invariant: in every state reached from construction by a
    sequence of [Add], [Contains], [Stats] and [Reset] operations the bit
    array has exactly [m] entries, and an operation other than [Reset]
    leaves every set bit set. *)
Theorem state_shape (size hashes : Z) (bf0 : BloomFilter) (ops : list Op) :
  0 <= size ->
  construct size hashes = Returned bf0 ->
  m (run bf0 ops) = size /\
  Z.of_nat (length (bits (run bf0 ops))) = size /\
  forall (op : Op) (j : nat),
    is_reset op = false ->
    bits (run bf0 ops) !! j = Some true ->
    bits (step (run bf0 ops) op) !! j = Some true.
Proof.
  intros Hsize Hcons.
  destruct (construct_shaped size hashes bf0 Hsize Hcons) as (Hm & _ & _ & Hs).
  destruct (run_shaped ops bf0 Hs) as [Hm' [_ Hlen]].
  split; [congruence|]. split; [congruence|].
  intros op j Hop Hj.
  destruct (step_grows (run bf0 ops) op Hop) as (_ & _ & _ & Hkeep). auto.
Qed.

(** ** Reset *)

Lemma Reset_cleared (bf bf' : BloomFilter) :
  Reset bf = (bf', Returned tt) ->
  m bf' = m bf /\ k bf' = k bf /\ cleared bf'.
Proof.
  unfold Reset, make. destruct (m bf <=? MaxInt); [|discriminate].
  intros [= <-]. unfold cleared. simpl. auto.
Qed.

Lemma step_cleared (bf : BloomFilter) (op : Op) :
  is_add op = false -> cleared bf ->
  m (step bf op) = m bf /\ k (step bf op) = k bf /\ cleared (step bf op).
Proof.
  intros Hop Hc. destruct op as [item| | |]; simpl in *; try discriminate; auto.
  destruct (Reset bf) as [bf' [[]|f]] eqn:HReset.
  - simpl. eapply Reset_cleared, HReset.
  - unfold Reset in HReset. destruct (make false (m bf)); [discriminate|].
    injection HReset as <- _. auto.
Qed.

Lemma run_cleared (ops : list Op) :
  forall bf : BloomFilter,
    forallb (fun op => negb (is_add op)) ops = true -> cleared bf ->
    m (run bf ops) = m bf /\ k (run bf ops) = k bf /\ cleared (run bf ops).
Proof.
  induction ops as [|op ops IH]; intros bf Hops Hc; simpl in *; [auto|].
  apply andb_prop in Hops as [Hop Hops].
  destruct (step_cleared bf op) as (Hm & Hk & Hc');
    [destruct (is_add op); [discriminate|reflexivity]|assumption|].
  destruct (IH _ Hops Hc') as (Hm' & Hk' & Hc'').
  repeat split; try congruence; apply Hc''.
Qed.

Lemma countSet_from (bs : list bool) :
  forall acc : Z,
    0 <= acc -> acc + Z.of_nat (length bs) <= MaxInt ->
    acc <= fold_left count_bit bs acc <= acc + Z.of_nat (length bs).
Proof.
  induction bs as [|b bs IH]; intros acc Hacc Hmax; simpl in *; [lia|].
  destruct b; simpl.
  - rewrite wrap_int_id by (unfold MinInt, MaxInt in *; lia).
    specialize (IH (acc + 1)). lia.
  - specialize (IH acc). lia.
Qed.

(** The count of set bits lies between 0 and the length of the array. *)
Lemma countSet_bounds (bs : list bool) :
  Z.of_nat (length bs) <= MaxInt ->
  0 <= countSet bs <= Z.of_nat (length bs).
Proof. intros Hlen. apply (countSet_from bs 0); lia. Qed.

Lemma countSet_replicate_false (n : nat) : countSet (replicate n false) = 0.
Proof.
  unfold countSet. induction n as [|n IH]; simpl; [reflexivity|exact IH].
Qed.

Lemma Contains_cleared (bf : BloomFilter) (x : string) :
  1 <= m bf -> 1 <= k bf <= MaxInt -> cleared bf ->
  Contains bf x = Returned false.
Proof.
  intros Hm Hk [Hbits _]. unfold Contains.
  rewrite getHashValues_replicate by lia.
  destruct (Z.to_nat (k bf)) as [|n] eqn:Hn; [lia|].
  simpl. rewrite Hbits, length_replicate.
  pose proof (Z.mod_pos_bound (big_endian (take 8 (digest_of x))) (m bf)) as Hv.
  destruct (Z.leb_spec 0 (big_endian (take 8 (digest_of x)) mod m bf)); [|lia].
  destruct (Z.ltb_spec (big_endian (take 8 (digest_of x)) mod m bf)
                       (Z.of_nat (Z.to_nat (m bf)))); [|lia].
  simpl. rewrite lookup_replicate_2 by lia. reflexivity.
Qed.

Section Snapshot.

Variable float64 : Type.
Variables of_int of_uint : Z -> float64.
Variables fdiv Pow : float64 -> float64 -> float64.

Local Abbreviation stats := (Stats float64 of_int of_uint fdiv Pow).

(** C5. Reset clears all state: once [Reset] has completed on a filter
    with at least one bit and one hash function, and as long as nothing is
    added, [Contains(x)] returns false for every item [x] and the snapshot
    reports itemsAdded = 0 and bitsSet = 0. *)
Theorem reset_clears (bf bf' : BloomFilter) (ops : list Op) :
  1 <= m bf -> 1 <= k bf <= MaxInt ->
  Reset bf = (bf', Returned tt) ->
  forallb (fun op => negb (is_add op)) ops = true ->
  (forall x : string, Contains (run bf' ops) x = Returned false) /\
  itemsAdded (stats (run bf' ops)) = 0 /\
  bitsSet (stats (run bf' ops)) = 0.
Proof.
  intros Hm Hk HReset Hops.
  destruct (Reset_cleared bf bf' HReset) as (Hm' & Hk' & Hc).
  destruct (run_cleared ops bf' Hops Hc) as (Hm'' & Hk'' & Hc').
  split; [|split].
  - intros x. apply Contains_cleared; [congruence|congruence|assumption].
  - simpl. apply Hc'.
  - simpl. destruct Hc' as [-> _]. apply countSet_replicate_false.
Qed.

(** C6, as the source has it.  Idempotent bit-setting: when [Add(x)] has
    completed, a second [Add(x)] completes too and leaves the bit array,
    and so the number of set bits, as the first call left it; each call
    increments itemsAdded in the wrap-around arithmetic of [int], which
    is an increment by 1 on each of the two calls whenever the counter is
    at most [MaxInt - 2] before them. *)
Theorem add_twice (bf bf1 : BloomFilter) (x : string) :
  Add bf x = (bf1, Returned tt) ->
  exists bf2 : BloomFilter,
    Add bf1 x = (bf2, Returned tt) /\
    bits bf2 = bits bf1 /\
    bitsSet (stats bf2) = bitsSet (stats bf1) /\
    itemsAdded (stats bf1) = wrap_int (itemsAdded (stats bf) + 1) /\
    itemsAdded (stats bf2) = wrap_int (itemsAdded (stats bf1) + 1) /\
    (MinInt <= itemsAdded (stats bf) <= MaxInt - 2 ->
     itemsAdded (stats bf1) = itemsAdded (stats bf) + 1 /\
     itemsAdded (stats bf2) = itemsAdded (stats bf1) + 1).
Proof.
  intros HAdd.
  pose proof (Add_absorbed bf1 x (absorbed_after_Add bf bf1 x HAdd)) as HAdd2.
  eexists. split; [exact HAdd2|].
  assert (Hitems : items bf1 = wrap_int (items bf + 1)).
  { unfold Add in HAdd.
    destruct (getHashValues bf x) as [hashes|f]; [|discriminate].
    destruct (set_bits (bits bf) hashes) as [bs [[]|f]]; [|discriminate].
    injection HAdd as <-. reflexivity. }
  simpl. repeat split; try assumption.
  - rewrite Hitems. apply wrap_int_id. unfold MinInt, MaxInt in *. lia.
  - rewrite Hitems.
    rewrite (wrap_int_id (items bf + 1)) by (unfold MinInt, MaxInt in *; lia).
    apply wrap_int_id. unfold MinInt, MaxInt in *. lia.
Qed.

End Snapshot.

(** ** The snapshot's ratios *)

Lemma step_params (bf : BloomFilter) (op : Op) :
  m (step bf op) = m bf /\ k (step bf op) = k bf.
Proof.
  destruct op as [item| | |]; simpl; auto.
  - destruct (Add_grows bf item) as (Hm & Hk & _). auto.
  - unfold Reset. destruct (make false (m bf)); simpl; auto.
Qed.

Lemma run_params (ops : list Op) :
  forall bf : BloomFilter, m (run bf ops) = m bf /\ k (run bf ops) = k bf.
Proof.
  induction ops as [|op ops IH]; intros bf; simpl; [auto|].
  destruct (IH (step bf op)) as [Hm Hk].
  destruct (step_params bf op) as [Hm' Hk']. split; congruence.
Qed.

Section StatsBounds.

Variable float64 : Type.
Variables of_int of_uint : Z -> float64.
Variables fdiv Pow : float64 -> float64 -> float64.
Variable fle : float64 -> float64 -> Prop.

Local Abbreviation stats := (Stats float64 of_int of_uint fdiv Pow).

(** What is assumed of [float64]: the quotient of a count by a size it does
    not exceed lies in [[0, 1]] (conversion and division round
    monotonically, and 0 and 1 are floating-point numbers), and [math.Pow]
    maps a base in [[0, 1]] and a non-negative integral exponent
    into [[0, 1]]. *)
Hypothesis fdiv_unit :
  forall a b : Z, 0 <= a <= b -> 0 < b <= MaxInt ->
    in_unit fle of_int (fdiv (of_int a) (of_uint b)).
Hypothesis Pow_unit :
  forall (x : float64) (n : Z), in_unit fle of_int x -> 0 <= n <= MaxUint ->
    in_unit fle of_int (Pow x (of_uint n)).

(** C10. Stats bounds: in every state reached from a filter constructed
    with at least one bit and one hash function, the snapshot's fillRatio
    lies in [[0, 1]] and so does its estimated false-positive rate,
    fillRatio raised to the power [k]. *)
Theorem stats_bounds (size hashes : Z) (bf0 : BloomFilter) (ops : list Op) :
  1 <= size -> 1 <= hashes <= MaxUint ->
  construct size hashes = Returned bf0 ->
  in_unit fle of_int (fillRatio (stats (run bf0 ops))) /\
  in_unit fle of_int (falsePositiveRate (stats (run bf0 ops))).
Proof.
  intros Hsize Hhashes Hcons.
  destruct (construct_shaped size hashes bf0) as (Hm & Hk & Hmax & Hs);
    [lia|assumption|].
  destruct (run_shaped ops bf0 Hs) as [Hm' [_ Hlen]].
  destruct (run_params ops bf0) as [_ Hk'].
  assert (Hratio : in_unit fle of_int (fillRatio (stats (run bf0 ops)))).
  { simpl. apply fdiv_unit; [|lia].
    rewrite <- Hlen. apply countSet_bounds. lia. }
  split; [exact Hratio|].
  simpl. apply Pow_unit; [exact Hratio|lia].
Qed.

End StatsBounds.

(** ** Construction *)

(** The struct literal does not fail with InvalidParameters. *)
Lemma construct_not_InvalidParameters (size hashes : Z) :
  construct size hashes <> Failed InvalidParameters.
Proof. unfold construct, make. destruct (size <=? MaxInt); discriminate. Qed.

Lemma wrap_uint_nonneg (z : Z) : 0 <= wrap_uint z.
Proof. apply Z.mod_pos_bound. reflexivity. Qed.

Section Construction.

Variable float64 : Type.
Variables of_int of_uint : Z -> float64.
Variable to_uint : float64 -> Z.
Variable fneg : float64 -> float64.
Variables fmul fdiv : float64 -> float64 -> float64.
Variables Log Ceil : float64 -> float64.
Variable Pow : float64 -> float64 -> float64.

Local Abbreviation new :=
  (NewBloomFilter float64 of_int of_uint to_uint fneg fmul fdiv Log Ceil Pow).
Local Abbreviation size_of :=
  (optimal_m float64 of_int to_uint fneg fmul fdiv Log Ceil Pow).

(** C4, as the source has it.  [NewBloomFilter] validates nothing and has
    no InvalidParameters error: for every expectedItems and
    falsePositiveRate, in or out of range, it returns a complete filter
    ([m] clear bits, nothing counted) when the size [m] it computed fits a
    slice, and otherwise panics in [make] without producing a structure. *)
Theorem NewBloomFilter_outcome (expectedItems : Z) (falsePositiveRate : float64) :
  new expectedItems falsePositiveRate <> Failed InvalidParameters /\
  ((size_of expectedItems falsePositiveRate <= MaxInt /\
    exists bf : BloomFilter,
      new expectedItems falsePositiveRate = Returned bf /\
      m bf = size_of expectedItems falsePositiveRate /\
      shaped bf /\ cleared bf) \/
   (MaxInt < size_of expectedItems falsePositiveRate /\
    new expectedItems falsePositiveRate = Failed LenOutOfRange)).
Proof.
split; [apply construct_not_InvalidParameters|].
unfold NewBloomFilter, construct, make.
set (size := size_of expectedItems falsePositiveRate).
assert (Hsize : 0 <= size) by apply wrap_uint_nonneg.
destruct (Z.leb_spec size MaxInt) as [Hle|Hgt].
- left. split; [assumption|].
  eexists. split; [reflexivity|]. unfold shaped, cleared. simpl.
  rewrite length_replicate. repeat split; auto; lia.
- right. auto.
Qed.

(** Every state reached from a filter [NewBloomFilter] returned has a bit
    array of exactly [m] entries. *)
Corollary NewBloomFilter_shape (expectedItems : Z) (falsePositiveRate : float64)
    (bf0 : BloomFilter) (ops : list Op) :
  new expectedItems falsePositiveRate = Returned bf0 ->
  Z.of_nat (length (bits (run bf0 ops))) = m (run bf0 ops).
Proof.
  intros Hnew. unfold NewBloomFilter in Hnew.
  apply construct_shaped in Hnew; [|apply wrap_uint_nonneg].
  destruct Hnew as (_ & _ & _ & Hs). apply (run_shaped ops bf0 Hs).
Qed.

End Construction.

(** Counterexample to C4.  With expectedItems = 0 and falsePositiveRate =
    float64(0), both out of range, construction does not fail with
    InvalidParameters, whatever [float64] and package [math] compute. *)
Lemma invalid_parameters_not_rejected :
  ~ exists (float64 : Type) (of_int of_uint : Z -> float64)
      (to_uint : float64 -> Z) (fneg : float64 -> float64)
      (fmul fdiv : float64 -> float64 -> float64)
      (Log Ceil : float64 -> float64) (Pow : float64 -> float64 -> float64),
      NewBloomFilter float64 of_int of_uint to_uint fneg fmul fdiv Log Ceil Pow
        0 (of_int 0) = Failed InvalidParameters.
Proof.
  intros (float64 & of_int & of_uint & to_uint & fneg & fmul & fdiv &
          Log & Ceil & Pow & H).
  revert H. apply construct_not_InvalidParameters.
Qed.

(** * Instances *)

(** ** Exact rational arithmetic satisfies what is assumed of [float64] *)

Lemma Q_fdiv_unit (a b : Z) :
  0 <= a <= b -> 0 < b <= MaxInt ->
  in_unit Qle inject_Z (Qdiv (inject_Z a) (inject_Z b)).
Proof.
  intros Ha Hb. unfold in_unit.
  assert (Hpos : (0 < inject_Z b)%Q) by (unfold Qlt; simpl; lia).
  split.
  - apply Qle_shift_div_l; [exact Hpos|]. unfold Qle. simpl. lia.
  - apply Qle_shift_div_r; [exact Hpos|]. unfold Qle. simpl. lia.
Qed.

Lemma Qpow_nat_unit (x : Q) (n : nat) :
  (0 <= x <= 1)%Q -> (0 <= Qpow_nat x n <= 1)%Q.
Proof.
  intros Hx. induction n as [|n IH]; simpl.
  - split; unfold Qle; simpl; lia.
  - split.
    + apply Qmult_le_0_compat; [apply Hx|apply IH].
    + change 1%Q with (1 * 1)%Q.
      apply Qmult_le_compat_nonneg; assumption.
Qed.

Lemma Q_Pow_unit (x : Q) (n : Z) :
  in_unit Qle inject_Z x -> 0 <= n <= MaxUint ->
  in_unit Qle inject_Z (Qpow x (inject_Z n)).
Proof. intros Hx _. apply Qpow_nat_unit, Hx. Qed.

(** ** The theorems at concrete filters *)

(** Witness of C1: ["alpha"] is added to the scenario's filter, other
    operations follow, and ["alpha"] is still found. *)
Lemma no_false_negatives_witness :
  Add scenario_filter "alpha" = (alpha_filter, Returned tt) /\
  forallb (fun op => negb (is_reset op)) reads_and_adds = true /\
  Contains (run alpha_filter reads_and_adds) "alpha" = Returned true.
Proof.
  split; [vm_compute; reflexivity|].
  split; [reflexivity|].
  apply (no_false_negatives scenario_filter alpha_filter "alpha" reads_and_adds).
  - vm_compute; reflexivity.
  - reflexivity.
Defined.

(** Witness of C2 on the scenario's filter and ["alpha"]. *)
Lemma getHashValues_sequence_witness :
  0 < m scenario_filter /\ k scenario_filter <= MaxInt /\
  exists hashes : list Z,
    getHashValues scenario_filter "alpha" = Returned hashes /\
    length hashes = Z.to_nat (k scenario_filter) /\
    Forall (fun h => 0 <= h < m scenario_filter) hashes /\
    forall h2 : Z,
      hashes !! 0%nat =
      twoHashIndices (digest_words (digest_of "alpha")).1 h2
                     (m scenario_filter) (Z.to_nat (k scenario_filter)) !! 0%nat.
Proof.
  split; [reflexivity|].
  split; [vm_compute; discriminate|].
  apply (getHashValues_sequence scenario_filter "alpha").
  - reflexivity.
  - vm_compute; discriminate.
Defined.

(** Witness of C3 on the scenario's filter and ["alpha"]. *)
Lemma getHashValues_slots_equal_witness :
  0 < m scenario_filter /\ k scenario_filter <= MaxInt /\
  exists (hashes : list Z) (value : Z),
    getHashValues scenario_filter "alpha" = Returned hashes /\
    length hashes = Z.to_nat (k scenario_filter) /\
    Uint64 (take 8 (digest_of "alpha")) = Returned value /\
    forall i j : Z, 0 <= i < k scenario_filter -> 0 <= j < k scenario_filter ->
      hashes !! Z.to_nat i = Some (value mod m scenario_filter) /\
      hashes !! Z.to_nat j = hashes !! Z.to_nat i.
Proof.
  split; [reflexivity|].
  split; [vm_compute; discriminate|].
  apply (getHashValues_slots_equal scenario_filter "alpha").
  - reflexivity.
  - vm_compute; discriminate.
Defined.

(** Witness of C5: the filter holding ["alpha"] is reset, then read and reset
    again. *)
Lemma reset_clears_witness :
  1 <= m alpha_filter /\ 1 <= k alpha_filter <= MaxInt /\
  Reset alpha_filter = ((Reset alpha_filter).1, Returned tt) /\
  forallb (fun op => negb (is_add op)) reads_and_resets = true /\
  (forall x : string,
     Contains (run (Reset alpha_filter).1 reads_and_resets) x = Returned false) /\
  itemsAdded (Stats Q inject_Z inject_Z Qdiv Qpow
                (run (Reset alpha_filter).1 reads_and_resets)) = 0 /\
  bitsSet (Stats Q inject_Z inject_Z Qdiv Qpow
             (run (Reset alpha_filter).1 reads_and_resets)) = 0.
Proof.
  split; [vm_compute; discriminate|].
  split; [vm_compute; split; discriminate|].
  split; [vm_compute; reflexivity|].
  split; [reflexivity|].
  apply (reset_clears Q inject_Z inject_Z Qdiv Qpow
           alpha_filter (Reset alpha_filter).1 reads_and_resets).
  - vm_compute; discriminate.
  - vm_compute; split; discriminate.
  - vm_compute; reflexivity.
  - reflexivity.
Defined.

(** Witness of C6: ["alpha"] is added to the scenario's filter twice. *)
Lemma add_twice_witness :
  Add scenario_filter "alpha" = (alpha_filter, Returned tt) /\
  exists bf2 : BloomFilter,
    Add alpha_filter "alpha" = (bf2, Returned tt) /\
    bits bf2 = bits alpha_filter /\
    bitsSet (Stats Q inject_Z inject_Z Qdiv Qpow bf2) =
      bitsSet (Stats Q inject_Z inject_Z Qdiv Qpow alpha_filter) /\
    itemsAdded (Stats Q inject_Z inject_Z Qdiv Qpow alpha_filter) =
      wrap_int (itemsAdded (Stats Q inject_Z inject_Z Qdiv Qpow scenario_filter) + 1) /\
    itemsAdded (Stats Q inject_Z inject_Z Qdiv Qpow bf2) =
      wrap_int (itemsAdded (Stats Q inject_Z inject_Z Qdiv Qpow alpha_filter) + 1) /\
    (MinInt <= itemsAdded (Stats Q inject_Z inject_Z Qdiv Qpow scenario_filter)
       <= MaxInt - 2 ->
     itemsAdded (Stats Q inject_Z inject_Z Qdiv Qpow alpha_filter) =
       itemsAdded (Stats Q inject_Z inject_Z Qdiv Qpow scenario_filter) + 1 /\
     itemsAdded (Stats Q inject_Z inject_Z Qdiv Qpow bf2) =
       itemsAdded (Stats Q inject_Z inject_Z Qdiv Qpow alpha_filter) + 1).
Proof.
  split; [vm_compute; reflexivity|].
  apply (add_twice Q inject_Z inject_Z Qdiv Qpow
           scenario_filter alpha_filter "alpha").
  vm_compute; reflexivity.
Defined.

(** Witness of C7: three additions among the operations on the scenario's
    filter. *)
Lemma counter_after_adds_witness :
  well_formed scenario_filter /\
  MinInt <= items scenario_filter <= MaxInt /\
  forallb (fun op => negb (is_reset op)) reads_and_adds = true /\
  items (run scenario_filter reads_and_adds) =
    wrap_int (items scenario_filter + count_adds reads_and_adds) /\
  (items scenario_filter + count_adds reads_and_adds <= MaxInt ->
   items (run scenario_filter reads_and_adds) =
     items scenario_filter + count_adds reads_and_adds).
Proof.
  assert (Hwf : well_formed scenario_filter)
    by (repeat split; vm_compute; congruence).
  assert (Hitems : MinInt <= items scenario_filter <= MaxInt)
    by (split; vm_compute; discriminate).
  split; [exact Hwf|]. split; [exact Hitems|]. split; [reflexivity|].
  apply (counter_after_adds scenario_filter reads_and_adds Hwf Hitems).
  reflexivity.
Defined.

(** Witness of C9 on the scenario's filter. *)
Lemma state_shape_witness :
  0 <= 9586 /\
  construct 9586 7 = Returned scenario_filter /\
  m (run scenario_filter mixed_ops) = 9586 /\
  Z.of_nat (length (bits (run scenario_filter mixed_ops))) = 9586 /\
  forall (op : Op) (j : nat),
    is_reset op = false ->
    bits (run scenario_filter mixed_ops) !! j = Some true ->
    bits (step (run scenario_filter mixed_ops) op) !! j = Some true.
Proof.
  split; [discriminate|].
  split; [vm_compute; reflexivity|].
  apply (state_shape 9586 7 scenario_filter mixed_ops).
  - discriminate.
  - vm_compute; reflexivity.
Defined.

(** Witness of C10 on the scenario's filter, in exact rational arithmetic,
    which satisfies both assumptions on [float64]. *)
Lemma stats_bounds_witness :
  (forall a b : Z, 0 <= a <= b -> 0 < b <= MaxInt ->
     in_unit Qle inject_Z (Qdiv (inject_Z a) (inject_Z b))) /\
  (forall (x : Q) (n : Z), in_unit Qle inject_Z x -> 0 <= n <= MaxUint ->
     in_unit Qle inject_Z (Qpow x (inject_Z n))) /\
  1 <= 9586 /\ 1 <= 7 <= MaxUint /\
  construct 9586 7 = Returned scenario_filter /\
  in_unit Qle inject_Z
    (fillRatio (Stats Q inject_Z inject_Z Qdiv Qpow
                  (run scenario_filter mixed_ops))) /\
  in_unit Qle inject_Z
    (falsePositiveRate (Stats Q inject_Z inject_Z Qdiv Qpow
                          (run scenario_filter mixed_ops))).
Proof.
  split; [exact Q_fdiv_unit|].
  split; [exact Q_Pow_unit|].
  split; [discriminate|].
  split; [split; discriminate|].
  split; [vm_compute; reflexivity|].
  apply (stats_bounds Q inject_Z inject_Z Qdiv Qpow Qle Q_fdiv_unit Q_Pow_unit
           9586 7 scenario_filter mixed_ops).
  - discriminate.
  - split; discriminate.
  - vm_compute; reflexivity.
Defined.

(** * Further properties of the filter *)

(** ** One item, one bit *)

Lemma slot_range (bf : BloomFilter) (x : string) :
  1 <= m bf -> 0 <= slot bf x < m bf.
Proof. intros Hm. apply Z.mod_pos_bound. lia. Qed.

Lemma set_bits_replicate (bs : list bool) (v : Z) (n : nat) :
  0 <= v < Z.of_nat (length bs) ->
  set_bits bs (replicate (S n) v) = (<[Z.to_nat v := true]> bs, Returned tt).
Proof.
  intros Hv. simpl.
  destruct (Z.leb_spec 0 v); [|lia].
  destruct (Z.ltb_spec v (Z.of_nat (length bs))); [|lia].
  simpl. apply set_bits_idempotent, Forall_replicate.
  rewrite length_insert. split; [lia|].
  apply list_lookup_insert_eq. lia.
Qed.

Lemma all_set_replicate (bs : list bool) (v : Z) (n : nat) (b : bool) :
  0 <= v < Z.of_nat (length bs) ->
  bs !! Z.to_nat v = Some b ->
  all_set bs (replicate (S n) v) = Returned b.
Proof.
  intros Hv Hb. simpl.
  destruct (Z.leb_spec 0 v); [|lia].
  destruct (Z.ltb_spec v (Z.of_nat (length bs))); [|lia].
  simpl. rewrite Hb. destruct b; [|reflexivity].
  apply all_set_true, Forall_replicate. auto.
Qed.

Lemma hash_count_succ (bf : BloomFilter) :
  1 <= k bf -> exists n : nat, Z.to_nat (k bf) = S n.
Proof.
  intros Hk. exists (Z.to_nat (k bf - 1)). lia.
Qed.

(** On a well-formed filter with at least one hash function, [Add] stores
    [true] at the item's slot and nowhere else. *)
Lemma Add_slot (bf : BloomFilter) (x : string) :
  well_formed bf -> 1 <= k bf ->
  Add bf x =
    (mkBloomFilter (m bf) (k bf) (<[Z.to_nat (slot bf x) := true]> (bits bf))
                   (wrap_int (items bf + 1)),
     Returned tt).
Proof.
  intros (Hm & Hk & Hlen) Hk1. unfold Add.
  rewrite getHashValues_replicate by lia.
  destruct (hash_count_succ bf Hk1) as [n ->].
  fold (slot bf x). rewrite set_bits_replicate; [reflexivity|].
  rewrite Hlen. apply slot_range. lia.
Qed.

(** Without hash functions [Add] stores nothing and still counts. *)
Lemma Add_no_hashes (bf : BloomFilter) (x : string) :
  k bf = 0 ->
  Add bf x =
    (mkBloomFilter (m bf) (k bf) (bits bf) (wrap_int (items bf + 1)),
     Returned tt).
Proof.
  intros Hk. unfold Add, getHashValues, make. rewrite Hk. reflexivity.
Qed.

Lemma Contains_slot (bf : BloomFilter) (x : string) (b : bool) :
  well_formed bf -> 1 <= k bf ->
  bits bf !! Z.to_nat (slot bf x) = Some b ->
  Contains bf x = Returned b.
Proof.
  intros (Hm & Hk & Hlen) Hk1 Hb. unfold Contains.
  rewrite getHashValues_replicate by lia.
  destruct (hash_count_succ bf Hk1) as [n ->].
  fold (slot bf x). apply all_set_replicate; [|exact Hb].
  rewrite Hlen. apply slot_range. lia.
Qed.

Lemma slot_bit (bf : BloomFilter) (x : string) :
  well_formed bf -> exists b : bool, bits bf !! Z.to_nat (slot bf x) = Some b.
Proof.
  intros (Hm & _ & Hlen).
  apply lookup_lt_is_Some_2.
  pose proof (slot_range bf x). lia.
Qed.

(** X1. [Add] on a well-formed filter with at least one hash function
    returns, sets the single bit at [Uint64(digest[0..7]) mod m] and leaves
    every other bit, [m] and [k] as they were, however many hash functions
    the filter has. *)
Theorem Add_sets_one_bit (bf : BloomFilter) (x : string) :
  well_formed bf -> 1 <= k bf ->
  exists bf' : BloomFilter,
    Add bf x = (bf', Returned tt) /\
    m bf' = m bf /\ k bf' = k bf /\
    bits bf' !! Z.to_nat (slot bf x) = Some true /\
    forall j : nat, j <> Z.to_nat (slot bf x) -> bits bf' !! j = bits bf !! j.
Proof.
  intros Hwf Hk. eexists. split; [apply Add_slot; assumption|].
  simpl. repeat split.
  - apply list_lookup_insert_eq.
    destruct Hwf as (Hm & _ & Hlen). pose proof (slot_range bf x). lia.
  - intros j Hj. apply list_lookup_insert_ne. congruence.
Qed.

(** X2. [Contains] on a well-formed filter with at least one hash function
    returns the value of the single bit at the item's slot. *)
Theorem Contains_reads_one_bit (bf : BloomFilter) (x : string) :
  well_formed bf -> 1 <= k bf ->
  exists b : bool,
    bits bf !! Z.to_nat (slot bf x) = Some b /\ Contains bf x = Returned b.
Proof.
  intros Hwf Hk. destruct (slot_bit bf x Hwf) as [b Hb].
  exists b. split; [exact Hb|]. apply Contains_slot; assumption.
Qed.

Lemma Add_well_formed (bf : BloomFilter) (x : string) :
  well_formed bf ->
  well_formed (Add bf x).1 /\ m (Add bf x).1 = m bf /\ k (Add bf x).1 = k bf.
Proof.
  intros Hwf. split; [apply (step_well_formed bf (OpAdd x) Hwf)|].
  destruct (Add_grows bf x) as (Hm & Hk & _). auto.
Qed.

(** X3. After [Add(y)], [Contains(x)] returns true exactly when it returned
    true before or [x] and [y] share their slot: every item whose first
    eight digest bytes agree with [y]'s modulo [m] is reported present. *)
Theorem Contains_after_Add (bf : BloomFilter) (x y : string) :
  well_formed bf -> 1 <= k bf ->
  Contains (Add bf y).1 x = Returned true <->
  (Contains bf x = Returned true \/ slot bf x = slot bf y).
Proof.
  intros Hwf Hk.
  destruct (Add_well_formed bf y Hwf) as (Hwf' & Hm' & Hk').
  assert (Hslot : slot (Add bf y).1 x = slot bf x)
    by (unfold slot; rewrite Hm'; reflexivity).
  destruct (slot_bit bf x Hwf) as [b Hb].
  rewrite (Contains_slot bf x b Hwf Hk Hb).
  pose proof (slot_range bf x) as Hx. pose proof (slot_range bf y) as Hy.
  pose proof Hwf as (Hm & _ & Hlen).
  destruct (decide (slot bf x = slot bf y)) as [Heq|Hne].
  - rewrite (Contains_slot _ x true Hwf'); [tauto|lia|].
    rewrite Hslot, Add_slot by assumption. simpl.
    rewrite Heq. apply list_lookup_insert_eq. lia.
  - rewrite (Contains_slot _ x b Hwf'); [|lia|].
    + split; [auto|]. intros [H|H]; [exact H|contradiction].
    + rewrite Hslot, Add_slot by assumption. simpl.
      rewrite list_lookup_insert_ne by lia. exact Hb.
Qed.

(** X4. Adding two items in either order leaves the same filter. *)
Theorem Add_commutes (bf : BloomFilter) (x y : string) :
  well_formed bf ->
  (Add (Add bf x).1 y).1 = (Add (Add bf y).1 x).1.
Proof.
  intros Hwf.
  destruct (Z.eq_dec (k bf) 0) as [Hk0|Hk0].
  - rewrite (Add_no_hashes bf x), (Add_no_hashes bf y) by assumption.
    rewrite !Add_no_hashes by assumption. reflexivity.
  - assert (Hk : 1 <= k bf) by (destruct Hwf as (_ & ? & _); lia).
    destruct (Add_well_formed bf x Hwf) as (Hwfx & _ & _).
    destruct (Add_well_formed bf y Hwf) as (Hwfy & _ & _).
    rewrite (Add_slot bf x Hwf Hk) in *. rewrite (Add_slot bf y Hwf Hk) in *.
    cbn [fst] in *.
    rewrite (Add_slot _ y Hwfx), (Add_slot _ x Hwfy) by exact Hk.
    unfold slot. cbn [fst m k bits items]. f_equal.
    destruct (decide (Z.to_nat (big_endian (take 8 (digest_of x)) mod m bf) =
                      Z.to_nat (big_endian (take 8 (digest_of y)) mod m bf)))
      as [->|Hne].
    + reflexivity.
    + apply list_insert_insert_ne. congruence.
Qed.

(** X5. A filter without hash functions reports every item present,
    whatever its bits are, and [Add] sets no bit of it while counting the
    call. *)
Theorem no_hash_functions (bf : BloomFilter) (x : string) :
  k bf = 0 ->
  Contains bf x = Returned true /\
  Add bf x =
    (mkBloomFilter (m bf) (k bf) (bits bf) (wrap_int (items bf + 1)),
     Returned tt).
Proof.
  intros Hk. split; [|apply Add_no_hashes, Hk].
  unfold Contains, getHashValues, make. rewrite Hk. reflexivity.
Qed.

(** ** Panics *)

Lemma hash_slot_zero_size (hash : list Z) (i : Z) :
  (9 <= length hash)%nat ->
  hash_slot 0 hash i = (<[8%nat := i mod 256]> hash, Failed DivideByZero).
Proof.
  intros Hlen. unfold hash_slot, append_byte.
  destruct (Nat.leb_spec 8 (length hash)); [|lia].
  destruct (Nat.ltb_spec 8 (length hash)); [|lia].
  unfold Uint64. rewrite length_take, length_insert.
  destruct (Nat.leb_spec 8 (9 `min` length hash)); [|lia].
  reflexivity.
Qed.

Lemma getHashValues_zero_size (bf : BloomFilter) (x : string) :
  m bf = 0 -> 1 <= k bf <= MaxInt ->
  getHashValues bf x = Failed DivideByZero.
Proof.
  intros Hm Hk. unfold getHashValues, make.
  destruct (Z.leb_spec (k bf) MaxInt); [|lia].
  destruct (hash_count_succ bf) as [n ->]; [lia|].
  rewrite Hm. cbn [hash_loop].
  rewrite hash_slot_zero_size by (rewrite digest_of_length; lia).
  reflexivity.
Qed.

Lemma getHashValues_oversized (bf : BloomFilter) (x : string) :
  MaxInt < k bf -> getHashValues bf x = Failed LenOutOfRange.
Proof.
  intros Hk. unfold getHashValues, make.
  destruct (Z.leb_spec (k bf) MaxInt); [lia|reflexivity].
Qed.

Lemma Add_returns_shaped (bf : BloomFilter) (x : string) :
  shaped bf -> m bf <> 0 -> k bf <= MaxInt ->
  exists bf' : BloomFilter, Add bf x = (bf', Returned tt).
Proof.
  intros [Hm Hlen] Hm0 Hk. unfold Add.
  rewrite getHashValues_replicate by assumption.
  destruct (set_bits_in_range
              (replicate (Z.to_nat (k bf))
                         (big_endian (take 8 (digest_of x)) mod m bf))
              (bits bf)) as [bs Hset].
  - apply Forall_replicate. rewrite Hlen. apply Z.mod_pos_bound. lia.
  - rewrite Hset. eauto.
Qed.

(** X6. On a filter whose bit array has [m] entries, as construction and
    every operation leave it, an [Add] that panics has changed nothing: it
    panics before the first bit is stored, with an integer division by zero
    when [m = 0], or in [make] when [k] exceeds the largest slice length. *)
Theorem Add_panic_changes_nothing (bf : BloomFilter) (x : string) (f : failure) :
  shaped bf ->
  (Add bf x).2 = Failed f ->
  (Add bf x).1 = bf /\
  ((m bf = 0 /\ 1 <= k bf <= MaxInt /\ f = DivideByZero) \/
   (MaxInt < k bf /\ f = LenOutOfRange)).
Proof.
  intros Hs Hfail.
  destruct (Z.leb_spec (k bf) MaxInt) as [Hk|Hk].
  - destruct (Z.eq_dec (m bf) 0) as [Hm|Hm].
    + destruct (Z.leb_spec 1 (k bf)) as [Hk1|Hk1].
      * unfold Add in *. rewrite getHashValues_zero_size in * by lia.
        simpl in *. injection Hfail as <-.
        split; [reflexivity|]. left. repeat split; auto; lia.
      * exfalso. unfold Add, getHashValues, make in Hfail.
        destruct (Z.leb_spec (k bf) MaxInt); [|lia].
        replace (Z.to_nat (k bf)) with O in Hfail by lia.
        simpl in Hfail. discriminate.
    + exfalso. destruct (Add_returns_shaped bf x Hs Hm Hk) as [bf' HAdd].
      rewrite HAdd in Hfail. discriminate.
  - unfold Add in *. rewrite getHashValues_oversized in * by assumption.
    simpl in *. injection Hfail as <-.
    split; [reflexivity|]. right. auto.
Qed.

Lemma Contains_returns (bf : BloomFilter) (x : string) :
  well_formed bf -> exists b : bool, Contains bf x = Returned b.
Proof.
  intros Hwf. destruct (Z.eq_dec (k bf) 0) as [Hk|Hk].
  - exists true. unfold Contains, getHashValues, make. rewrite Hk. reflexivity.
  - destruct (slot_bit bf x Hwf) as [b Hb]. exists b.
    apply Contains_slot; [assumption| |assumption].
    destruct Hwf as (_ & ? & _). lia.
Qed.

Lemma Reset_returns (bf : BloomFilter) :
  m bf <= MaxInt ->
  Reset bf =
    (mkBloomFilter (m bf) (k bf) (replicate (Z.to_nat (m bf)) false) 0,
     Returned tt).
Proof.
  intros Hm. unfold Reset, make.
  destruct (Z.leb_spec (m bf) MaxInt); [reflexivity|lia].
Qed.

(** X7. In every state reached from a filter constructed with at least one
    bit and a hash count that fits a slice, no operation panics: [Add] and
    [Reset] return, and [Contains] returns a boolean.  No index is ever out
    of range and no division is by zero. *)
Theorem operations_never_panic (size hashes : Z) (bf0 : BloomFilter)
    (ops : list Op) (x : string) :
  1 <= size -> 0 <= hashes <= MaxInt ->
  construct size hashes = Returned bf0 ->
  (Add (run bf0 ops) x).2 = Returned tt /\
  (exists b : bool, Contains (run bf0 ops) x = Returned b) /\
  (Reset (run bf0 ops)).2 = Returned tt.
Proof.
  intros Hsize Hhashes Hcons.
  pose proof (run_well_formed ops bf0
                (construct_well_formed size hashes bf0 Hsize Hhashes Hcons))
    as Hwf.
  split; [|split].
  - destruct (Add_returns _ x Hwf) as [bs ->]. reflexivity.
  - apply Contains_returns, Hwf.
  - rewrite Reset_returns; [reflexivity|]. destruct Hwf as (? & _). lia.
Qed.

(** X8. [Reset] brings every state reached from a constructed filter back to
    that filter: the parameters, an all-clear bit array, a zero counter. *)
Theorem Reset_restores_construction (size hashes : Z) (bf0 : BloomFilter)
    (ops : list Op) :
  0 <= size ->
  construct size hashes = Returned bf0 ->
  Reset (run bf0 ops) = (bf0, Returned tt).
Proof.
  intros Hsize Hcons.
  destruct (construct_shaped size hashes bf0 Hsize Hcons) as (Hm & Hk & Hmax & Hs).
  destruct (run_params ops bf0) as [Hm' Hk'].
  rewrite Reset_returns by lia. rewrite Hm', Hk', Hm, Hk.
  unfold construct, make in Hcons.
  destruct (Z.leb_spec size MaxInt); [|lia].
  injection Hcons as <-. reflexivity.
Qed.

(** ** Counting the set bits *)

Lemma count_true_le_length (bs : list bool) : (count_true bs <= length bs)%nat.
Proof. induction bs as [|[] bs IH]; simpl; lia. Qed.

Lemma count_bits_from (bs : list bool) :
  forall acc : Z,
    0 <= acc -> acc + Z.of_nat (length bs) <= MaxInt ->
    fold_left count_bit bs acc = acc + Z.of_nat (count_true bs).
Proof.
  induction bs as [|b bs IH]; intros acc Hacc Hmax; simpl in *; [lia|].
  destruct b; simpl.
  - rewrite wrap_int_id by (unfold MinInt, MaxInt in *; lia).
    rewrite IH by lia. lia.
  - rewrite IH by lia. lia.
Qed.

(** The [int] counter of [Stats] counts the set bits exactly: an array of at
    most [MaxInt] entries cannot make it wrap. *)
Lemma countSet_count_true (bs : list bool) :
  Z.of_nat (length bs) <= MaxInt ->
  countSet bs = Z.of_nat (count_true bs).
Proof. intros Hlen. unfold countSet. rewrite count_bits_from; lia. Qed.

Lemma count_true_insert (bs : list bool) :
  forall i : nat,
    (count_true bs <= count_true (<[i := true]> bs) <= S (count_true bs))%nat.
Proof.
  induction bs as [|b bs IH]; intros [|i]; simpl; try lia.
  - destruct b; simpl; lia.
  - specialize (IH i). destruct b; simpl; lia.
Qed.

Lemma step_count_true (bf : BloomFilter) (op : Op) :
  well_formed bf -> is_reset op = false ->
  (count_true (bits bf) <= count_true (bits (step bf op))
   <= (if is_add op then 1 else 0) + count_true (bits bf))%nat.
Proof.
  intros Hwf Hop. destruct op as [x| | |]; simpl in *; try discriminate; try lia.
  destruct (Z.eq_dec (k bf) 0) as [Hk|Hk].
  - rewrite Add_no_hashes by assumption. simpl. lia.
  - rewrite Add_slot; [|assumption|destruct Hwf as (_ & ? & _); lia].
    simpl. apply count_true_insert.
Qed.

Lemma run_count_true (ops : list Op) :
  forall bf : BloomFilter,
    well_formed bf ->
    forallb (fun op => negb (is_reset op)) ops = true ->
    Z.of_nat (count_true (bits (run bf ops)))
    <= Z.of_nat (count_true (bits bf)) + count_adds ops.
Proof.
  induction ops as [|op ops IH]; intros bf Hwf Hops; simpl in *.
  - unfold count_adds. simpl. lia.
  - apply andb_prop in Hops as [Hop Hops].
    assert (Hop' : is_reset op = false)
      by (destruct (is_reset op); [discriminate|reflexivity]).
    pose proof (step_count_true bf op Hwf Hop') as Hstep.
    specialize (IH (step bf op) (step_well_formed bf op Hwf) Hops).
    rewrite count_adds_cons. destruct (is_add op); lia.
Qed.

Lemma well_formed_length (bf : BloomFilter) :
  well_formed bf -> Z.of_nat (length (bits bf)) <= MaxInt.
Proof. intros (? & _ & ->). lia. Qed.

(** X9. An operation other than [Reset] on a well-formed filter never lowers
    the number of set bits that [Stats] reports, and raises it by at most
    one: an [Add] sets at most one new bit whatever the hash count is. *)
Theorem bitsSet_step (bf : BloomFilter) (op : Op) :
  well_formed bf -> is_reset op = false ->
  countSet (bits bf) <= countSet (bits (step bf op)) <= countSet (bits bf) + 1.
Proof.
  intros Hwf Hop.
  pose proof (step_count_true bf op Hwf Hop) as Hstep.
  rewrite !countSet_count_true
    by auto using well_formed_length, step_well_formed.
  destruct (is_add op); lia.
Qed.

(** X10. Starting from a freshly constructed filter, after any operations
    without [Reset] the number of set bits is at most the number of [Add]
    calls among them. *)
Theorem bitsSet_at_most_adds (size hashes : Z) (bf0 : BloomFilter)
    (ops : list Op) :
  1 <= size -> 0 <= hashes <= MaxInt ->
  construct size hashes = Returned bf0 ->
  forallb (fun op => negb (is_reset op)) ops = true ->
  countSet (bits (run bf0 ops)) <= count_adds ops.
Proof.
  intros Hsize Hhashes Hcons Hops.
  pose proof (construct_well_formed size hashes bf0 Hsize Hhashes Hcons) as Hwf.
  pose proof (run_count_true ops bf0 Hwf Hops) as Hrun.
  rewrite countSet_count_true
    by auto using well_formed_length, run_well_formed.
  unfold construct, make in Hcons.
  destruct (size <=? MaxInt); [|discriminate].
  injection Hcons as <-. simpl in Hrun.
  assert (Hzero : forall n, count_true (replicate n false) = O)
    by (induction n; simpl; auto).
  rewrite Hzero in Hrun. lia.
Qed.

(** X11. In every state reached from a constructed filter the number of set
    bits that [Stats] reports lies between 0 and the size [m] of the
    filter. *)
Theorem bitsSet_within_size (size hashes : Z) (bf0 : BloomFilter)
    (ops : list Op) :
  0 <= size ->
  construct size hashes = Returned bf0 ->
  0 <= countSet (bits (run bf0 ops)) <= size.
Proof.
  intros Hsize Hcons.
  destruct (construct_shaped size hashes bf0 Hsize Hcons) as (Hm & _ & Hmax & Hs).
  destruct (run_shaped ops bf0 Hs) as [Hm' [_ Hlen]].
  assert (Hlen' : Z.of_nat (length (bits (run bf0 ops))) = size) by congruence.
  rewrite <- Hlen'. apply countSet_bounds. lia.
Qed.

(** ** Membership only grows *)

Lemma all_set_true_inv (bs : list bool) (hashes : list Z) :
  all_set bs hashes = Returned true ->
  Forall (fun h => 0 <= h < Z.of_nat (length bs) /\
                   bs !! Z.to_nat h = Some true) hashes.
Proof.
  induction hashes as [|h rest IH]; simpl; intros Hall; [constructor|].
  destruct (Z.leb_spec 0 h); simpl in Hall; [|discriminate].
  destruct (Z.ltb_spec h (Z.of_nat (length bs))); [|discriminate].
  destruct (bs !! Z.to_nat h) as [[]|] eqn:Hb; try discriminate.
  constructor; [split; [lia|assumption]|auto].
Qed.

Lemma Contains_true_grows (bf bf' : BloomFilter) (x : string) :
  grows bf bf' ->
  Contains bf x = Returned true -> Contains bf' x = Returned true.
Proof.
  intros (Hm & Hk & Hlen & Hbits). unfold Contains.
  rewrite (getHashValues_params bf bf') by assumption.
  destruct (getHashValues bf x) as [hashes|f]; [|discriminate].
  intros Hall. apply all_set_true_inv in Hall. apply all_set_true.
  eapply Forall_impl; [exact Hall|].
  intros h [Hrange Hbit]. simpl. rewrite Hlen. auto.
Qed.

Lemma Contains_just_added (bf bf1 : BloomFilter) (x : string) :
  Add bf x = (bf1, Returned tt) -> Contains bf1 x = Returned true.
Proof.
  intros HAdd. destruct (absorbed_after_Add bf bf1 x HAdd) as (hashes & Hh & Hset).
  unfold Contains. rewrite Hh. apply all_set_true.
  eapply set_bits_returned, Hset.
Qed.

(** X12. An item that [Contains] reports present stays reported present
    through every sequence of operations without [Reset], whether it was
    ever added or is a false positive. *)
Theorem found_stays_found (bf : BloomFilter) (x : string) (ops : list Op) :
  Contains bf x = Returned true ->
  forallb (fun op => negb (is_reset op)) ops = true ->
  Contains (run bf ops) x = Returned true.
Proof.
  intros Hfound Hops.
  eapply Contains_true_grows; [apply run_grows, Hops|exact Hfound].
Qed.

(** ** The request handlers *)

Section HandlerProperties.

Variable float64 : Type.
Variables of_int of_uint : Z -> float64.
Variables fdiv Pow : float64 -> float64 -> float64.
Variable Decode : list Z -> option string.

Local Abbreviation answer := (serve float64 of_int of_uint fdiv Pow Decode).
Local Abbreviation answer_all :=
  (serve_all float64 of_int of_uint fdiv Pow Decode).

Lemma method_test (r : Request) (method : string) :
  negb (String.eqb (Method r) method) = false <-> Method r = method.
Proof.
  destruct (String.eqb_spec (Method r) method); simpl; split;
    congruence.
Qed.

(** What a request does to the filter: nothing, the effect of one [Add], or
    the effect of [Reset]. *)
Lemma serve_effect (bf : BloomFilter) (q : endpoint * Request) :
  (answer bf q).1 = bf \/
  (adds q = true /\ exists item : string, (answer bf q).1 = step bf (OpAdd item)) \/
  (resets q = true /\ (answer bf q).1 = step bf OpReset).
Proof.
  destruct q as [ep r]. unfold serve, adds, resets. simpl.
  destruct ep; simpl.
  - unfold handleAdd.
    destruct (String.eqb_spec (Method r) MethodPost) as [Hm|Hm]; simpl; [|auto].
    destruct (Decode (Body r)) as [item|]; [|auto].
    right. left. split; [reflexivity|]. exists item.
    destruct (Add bf item) as [bf' [[]|f]]; reflexivity.
  - left. unfold handleCheck.
    destruct (negb (String.eqb (Method r) MethodPost)); [reflexivity|].
    destruct (Decode (Body r)) as [item|]; [|reflexivity].
    destruct (Contains bf item); reflexivity.
  - left. unfold handleStats.
    destruct (negb (String.eqb (Method r) MethodGet)); reflexivity.
  - unfold handleReset.
    destruct (String.eqb_spec (Method r) MethodPost) as [Hm|Hm]; simpl; [|auto].
    right. right. split; [reflexivity|].
    destruct (Reset bf) as [bf' [[]|f]]; reflexivity.
Qed.

(** A sequence of requests acts on the filter as a sequence of operations,
    with a [Reset] or an [Add] only where a request asked for one. *)
Lemma serve_all_run (qs : list (endpoint * Request)) :
  forall bf : BloomFilter,
    exists ops : list Op,
      answer_all bf qs = run bf ops /\
      (forallb (fun q => negb (resets q)) qs = true ->
       forallb (fun op => negb (is_reset op)) ops = true) /\
      (forallb (fun q => negb (adds q)) qs = true ->
       forallb (fun op => negb (is_add op)) ops = true).
Proof.
  induction qs as [|q qs IH]; intros bf.
  - exists []. simpl. auto.
  - unfold serve_all. simpl.
    fold (answer_all (answer bf q).1 qs).
    destruct (IH (answer bf q).1) as (ops & Hrun & Hres & Hadd).
    destruct (serve_effect bf q) as [Hq|[[Hq [item Hstep]]|[Hq Hstep]]].
    + exists ops. rewrite Hrun, Hq. split; [reflexivity|].
      split; intros H; apply andb_prop in H as [_ H]; auto.
    + exists (OpAdd item :: ops). rewrite Hrun, Hstep.
      split; [reflexivity|]. split; intros H; apply andb_prop in H as [H1 H2].
      * simpl. auto.
      * rewrite Hq in H1. discriminate.
    + exists (OpReset :: ops). rewrite Hrun, Hstep.
      split; [reflexivity|]. split; intros H; apply andb_prop in H as [H1 H2].
      * rewrite Hq in H1. discriminate.
      * simpl. auto.
Qed.

(** X13. Every handler answers a request whose method is not the one it
    accepts (GET for the statistics, POST for the others) with status 405 and
    the message "Method not allowed", and leaves the filter untouched. *)
Theorem wrong_method_rejected (bf : BloomFilter) (ep : endpoint) (r : Request) :
  Method r <> accepted_method ep ->
  answer bf (ep, r) =
    (bf, Returned (http_Error "Method not allowed" StatusMethodNotAllowed)).
Proof.
  intros Hmethod. unfold serve. simpl.
  destruct ep; simpl in Hmethod;
    unfold handleAdd, handleCheck, handleStats, handleReset.
  all: match goal with
       | |- context [String.eqb ?given ?method] =>
           destruct (String.eqb_spec given method); [contradiction|]
       end.
  all: reflexivity.
Qed.

(** X14. The handlers of /api/add and /api/check answer a POST whose body
    does not decode with status 400 and the message "Invalid request", and
    leave the filter untouched. *)
Theorem undecodable_body_rejected (bf : BloomFilter) (ep : endpoint) (r : Request) :
  ep = ApiAdd \/ ep = ApiCheck ->
  Method r = MethodPost ->
  Decode (Body r) = None ->
  answer bf (ep, r) =
    (bf, Returned (http_Error "Invalid request" StatusBadRequest)).
Proof.
  intros Hep Hmethod Hbody. unfold serve. simpl.
  destruct Hep as [-> | ->]; unfold handleAdd, handleCheck;
    rewrite Hmethod, String.eqb_refl, Hbody; reflexivity.
Qed.

(** X15. A request changes the filter only if it is a POST to /api/add or a
    POST to /api/reset: no GET, no request to /api/check or /api/stats and
    no rejected request ever does. *)
Theorem only_add_and_reset_change (bf : BloomFilter) (q : endpoint * Request) :
  (answer bf q).1 <> bf ->
  (q.1 = ApiAdd /\ Method q.2 = MethodPost /\ Decode (Body q.2) <> None) \/
  (q.1 = ApiReset /\ Method q.2 = MethodPost).
Proof.
  destruct q as [ep r]. unfold serve. simpl. intros Hchanged.
  destruct ep.
  - left. unfold handleAdd in Hchanged.
    destruct (String.eqb_spec (Method r) MethodPost) as [Hm|Hm];
      simpl in Hchanged; [|contradiction].
    destruct (Decode (Body r)) as [item|]; [|contradiction].
    repeat split; [assumption|discriminate].
  - exfalso. apply Hchanged. unfold handleCheck.
    destruct (negb (String.eqb (Method r) MethodPost)); [reflexivity|].
    destruct (Decode (Body r)) as [item|]; [|reflexivity].
    destruct (Contains bf item); reflexivity.
  - exfalso. apply Hchanged. unfold handleStats.
    destruct (negb (String.eqb (Method r) MethodGet)); reflexivity.
  - right. unfold handleReset in Hchanged.
    destruct (String.eqb_spec (Method r) MethodPost) as [Hm|Hm];
      simpl in Hchanged; [auto|contradiction].
Qed.

Lemma handleCheck_reply (bf : BloomFilter) (r : Request) (item : string) (b : bool) :
  Method r = MethodPost -> Decode (Body r) = Some item ->
  Contains bf item = Returned b ->
  answer bf (ApiCheck, r) =
    (bf, Returned (json_reply (Flags [("exists"%string, b)]))).
Proof.
  intros Hmethod Hbody Hcontains. unfold serve, handleCheck. simpl.
  rewrite Hmethod, String.eqb_refl, Hbody, Hcontains. reflexivity.
Qed.

(** X16. Once a POST to /api/add has been answered for an item, a POST to
    /api/check for the same item is answered with exists = true, whatever
    requests came in between, as long as none of them was a POST to
    /api/reset. *)
Theorem added_item_is_found (bf bf1 : BloomFilter) (r r' : Request)
    (resp : Response float64) (item : string) (qs : list (endpoint * Request)) :
  Method r = MethodPost -> Decode (Body r) = Some item ->
  answer bf (ApiAdd, r) = (bf1, Returned resp) ->
  forallb (fun q => negb (resets q)) qs = true ->
  Method r' = MethodPost -> Decode (Body r') = Some item ->
  answer (answer_all bf1 qs) (ApiCheck, r') =
    (answer_all bf1 qs, Returned (json_reply (Flags [("exists"%string, true)]))).
Proof.
  intros Hmethod Hbody Hserve Hqs Hmethod' Hbody'.
  unfold serve, handleAdd in Hserve. simpl in Hserve.
  rewrite Hmethod, String.eqb_refl, Hbody in Hserve. simpl in Hserve.
  destruct (Add bf item) as [bf' [[]|f]] eqn:HAdd; [|discriminate].
  injection Hserve as <- _.
  destruct (serve_all_run qs bf') as (ops & Hrun & Hres & _).
  apply (handleCheck_reply _ r' item true Hmethod' Hbody').
  rewrite Hrun. eapply Contains_true_grows; [apply run_grows, Hres, Hqs|].
  eapply Contains_just_added, HAdd.
Qed.

(** X17. Once a POST to /api/reset has been answered on a filter with at
    least one bit and one hash function, a POST to /api/check is answered
    with exists = false for every item, whatever requests came in between,
    as long as none of them was a POST to /api/add. *)
Theorem nothing_found_after_reset (bf bf1 : BloomFilter) (r r' : Request)
    (resp : Response float64) (item : string) (qs : list (endpoint * Request)) :
  1 <= m bf -> 1 <= k bf <= MaxInt ->
  Method r = MethodPost ->
  answer bf (ApiReset, r) = (bf1, Returned resp) ->
  forallb (fun q => negb (adds q)) qs = true ->
  Method r' = MethodPost -> Decode (Body r') = Some item ->
  answer (answer_all bf1 qs) (ApiCheck, r') =
    (answer_all bf1 qs, Returned (json_reply (Flags [("exists"%string, false)]))).
Proof.
  intros Hm Hk Hmethod Hserve Hqs Hmethod' Hbody'.
  unfold serve, handleReset in Hserve. simpl in Hserve.
  rewrite Hmethod, String.eqb_refl in Hserve. simpl in Hserve.
  destruct (Reset bf) as [bf' [[]|f]] eqn:HReset; [|discriminate].
  injection Hserve as <- _.
  destruct (Reset_cleared bf bf' HReset) as (Hm' & Hk' & Hc).
  destruct (serve_all_run qs bf') as (ops & Hrun & _ & Hadd).
  destruct (run_cleared ops bf' (Hadd Hqs) Hc) as (Hm'' & Hk'' & Hc').
  apply (handleCheck_reply _ r' item false Hmethod' Hbody').
  rewrite Hrun. apply Contains_cleared; [congruence|congruence|assumption].
Qed.

(** X18. On the filter constructed with at least one bit and a hash count
    that fits a slice, no handler ever panics: after any sequence of
    requests every request to any of the four paths gets a reply. *)
Theorem handlers_never_panic (size hashes : Z) (bf0 : BloomFilter)
    (qs : list (endpoint * Request)) (q : endpoint * Request) :
  1 <= size -> 0 <= hashes <= MaxInt ->
  construct size hashes = Returned bf0 ->
  exists resp : Response float64, (answer (answer_all bf0 qs) q).2 = Returned resp.
Proof.
  intros Hsize Hhashes Hcons.
  destruct (serve_all_run qs bf0) as (ops & -> & _).
  pose proof (run_well_formed ops bf0
                (construct_well_formed size hashes bf0 Hsize Hhashes Hcons))
    as Hwf.
  destruct q as [ep r]. unfold serve. simpl. destruct ep.
  - unfold handleAdd.
    destruct (negb (String.eqb (Method r) MethodPost)); [eauto|].
    destruct (Decode (Body r)) as [item|]; [|eauto].
    destruct (Add_returns _ item Hwf) as [bs ->]. eauto.
  - unfold handleCheck.
    destruct (negb (String.eqb (Method r) MethodPost)); [eauto|].
    destruct (Decode (Body r)) as [item|]; [|eauto].
    destruct (Contains_returns _ item Hwf) as [b ->]. eauto.
  - unfold handleStats.
    destruct (negb (String.eqb (Method r) MethodGet)); eauto.
  - unfold handleReset.
    destruct (negb (String.eqb (Method r) MethodPost)); [eauto|].
    rewrite Reset_returns by (destruct Hwf as (? & _); lia). eauto.
Qed.

(** X19. The size and the hash count that /api/stats reports never change:
    after any sequence of requests they are the [m] and [k] the filter
    started with. *)
Theorem stats_parameters_fixed (bf : BloomFilter) (qs : list (endpoint * Request)) :
  size (Stats float64 of_int of_uint fdiv Pow (answer_all bf qs)) = m bf /\
  hashFunctions (Stats float64 of_int of_uint fdiv Pow (answer_all bf qs)) = k bf.
Proof.
  destruct (serve_all_run qs bf) as (ops & -> & _).
  simpl. apply run_params.
Qed.

End HandlerProperties.

(** * The further properties at concrete filters and requests *)

Lemma scenario_well_formed : well_formed scenario_filter.
Proof. repeat split; vm_compute; congruence. Qed.

Lemma scenario_constructed : construct 9586 7 = Returned scenario_filter.
Proof. vm_compute. reflexivity. Qed.

(** Witness of X1. *)
Lemma Add_sets_one_bit_witness :
  well_formed scenario_filter /\ 1 <= k scenario_filter /\
  exists bf' : BloomFilter,
    Add scenario_filter "alpha" = (bf', Returned tt) /\
    m bf' = m scenario_filter /\ k bf' = k scenario_filter /\
    bits bf' !! Z.to_nat (slot scenario_filter "alpha") = Some true /\
    forall j : nat, j <> Z.to_nat (slot scenario_filter "alpha") ->
      bits bf' !! j = bits scenario_filter !! j.
Proof.
  assert (Hk : 1 <= k scenario_filter) by (vm_compute; discriminate).
  split; [exact scenario_well_formed|]. split; [exact Hk|].
  exact (Add_sets_one_bit scenario_filter "alpha" scenario_well_formed Hk).
Defined.

(** Witness of X2. *)
Lemma Contains_reads_one_bit_witness :
  well_formed scenario_filter /\ 1 <= k scenario_filter /\
  exists b : bool,
    bits scenario_filter !! Z.to_nat (slot scenario_filter "alpha") = Some b /\
    Contains scenario_filter "alpha" = Returned b.
Proof.
  assert (Hk : 1 <= k scenario_filter) by (vm_compute; discriminate).
  split; [exact scenario_well_formed|]. split; [exact Hk|].
  exact (Contains_reads_one_bit scenario_filter "alpha" scenario_well_formed Hk).
Defined.

(** Witness of X3: ["item480"] against ["item9"], which share their slot. *)
Lemma Contains_after_Add_witness :
  well_formed scenario_filter /\ 1 <= k scenario_filter /\
  (Contains (Add scenario_filter "item9").1 "item480" = Returned true <->
   (Contains scenario_filter "item480" = Returned true \/
    slot scenario_filter "item480" = slot scenario_filter "item9")).
Proof.
  assert (Hk : 1 <= k scenario_filter) by (vm_compute; discriminate).
  split; [exact scenario_well_formed|]. split; [exact Hk|].
  exact (Contains_after_Add scenario_filter "item480" "item9"
           scenario_well_formed Hk).
Defined.

(** Witness of X4. *)
Lemma Add_commutes_witness :
  well_formed scenario_filter /\
  (Add (Add scenario_filter "alpha").1 "beta").1 =
  (Add (Add scenario_filter "beta").1 "alpha").1.
Proof.
  split; [exact scenario_well_formed|].
  exact (Add_commutes scenario_filter "alpha" "beta" scenario_well_formed).
Defined.

(** Witness of X5. *)
Lemma no_hash_functions_witness :
  k hashless_filter = 0 /\
  Contains hashless_filter "alpha" = Returned true /\
  Add hashless_filter "alpha" =
    (mkBloomFilter (m hashless_filter) (k hashless_filter) (bits hashless_filter)
                   (wrap_int (items hashless_filter + 1)),
     Returned tt).
Proof.
  split; [reflexivity|].
  exact (no_hash_functions hashless_filter "alpha" eq_refl).
Defined.

(** Witness of X6: a filter without bits and with three hash functions. *)
Lemma Add_panic_changes_nothing_witness :
  shaped sizeless_filter /\
  (Add sizeless_filter "alpha").2 = Failed DivideByZero /\
  (Add sizeless_filter "alpha").1 = sizeless_filter /\
  ((m sizeless_filter = 0 /\ 1 <= k sizeless_filter <= MaxInt /\
    DivideByZero = DivideByZero) \/
   (MaxInt < k sizeless_filter /\ DivideByZero = LenOutOfRange)).
Proof.
  assert (Hs : shaped sizeless_filter) by (split; vm_compute; congruence).
  assert (Hf : (Add sizeless_filter "alpha").2 = Failed DivideByZero)
    by (vm_compute; reflexivity).
  split; [exact Hs|]. split; [exact Hf|].
  exact (Add_panic_changes_nothing sizeless_filter "alpha" DivideByZero Hs Hf).
Defined.

(** Witness of X7. *)
Lemma operations_never_panic_witness :
  1 <= 9586 /\ 0 <= 7 <= MaxInt /\
  construct 9586 7 = Returned scenario_filter /\
  (Add (run scenario_filter mixed_ops) "alpha").2 = Returned tt /\
  (exists b : bool, Contains (run scenario_filter mixed_ops) "alpha" = Returned b) /\
  (Reset (run scenario_filter mixed_ops)).2 = Returned tt.
Proof.
  assert (H1 : 1 <= 9586) by discriminate.
  assert (H2 : 0 <= 7 <= MaxInt) by (split; discriminate).
  split; [exact H1|]. split; [exact H2|]. split; [exact scenario_constructed|].
  exact (operations_never_panic 9586 7 scenario_filter mixed_ops "alpha"
           H1 H2 scenario_constructed).
Defined.

(** Witness of X8. *)
Lemma Reset_restores_construction_witness :
  0 <= 9586 /\
  construct 9586 7 = Returned scenario_filter /\
  Reset (run scenario_filter mixed_ops) = (scenario_filter, Returned tt).
Proof.
  assert (H1 : 0 <= 9586) by discriminate.
  split; [exact H1|]. split; [exact scenario_constructed|].
  exact (Reset_restores_construction 9586 7 scenario_filter mixed_ops
           H1 scenario_constructed).
Defined.

(** Witness of X9. *)
Lemma bitsSet_step_witness :
  well_formed scenario_filter /\ is_reset (OpAdd "alpha") = false /\
  countSet (bits scenario_filter)
  <= countSet (bits (step scenario_filter (OpAdd "alpha")))
  <= countSet (bits scenario_filter) + 1.
Proof.
  split; [exact scenario_well_formed|]. split; [reflexivity|].
  exact (bitsSet_step scenario_filter (OpAdd "alpha") scenario_well_formed eq_refl).
Defined.

(** Witness of X10. *)
Lemma bitsSet_at_most_adds_witness :
  1 <= 9586 /\ 0 <= 7 <= MaxInt /\
  construct 9586 7 = Returned scenario_filter /\
  forallb (fun op => negb (is_reset op)) reads_and_adds = true /\
  countSet (bits (run scenario_filter reads_and_adds)) <= count_adds reads_and_adds.
Proof.
  assert (H1 : 1 <= 9586) by discriminate.
  assert (H2 : 0 <= 7 <= MaxInt) by (split; discriminate).
  split; [exact H1|]. split; [exact H2|]. split; [exact scenario_constructed|].
  split; [reflexivity|].
  exact (bitsSet_at_most_adds 9586 7 scenario_filter reads_and_adds
           H1 H2 scenario_constructed eq_refl).
Defined.

(** Witness of X11. *)
Lemma bitsSet_within_size_witness :
  0 <= 9586 /\
  construct 9586 7 = Returned scenario_filter /\
  0 <= countSet (bits (run scenario_filter mixed_ops)) <= 9586.
Proof.
  assert (H1 : 0 <= 9586) by discriminate.
  split; [exact H1|]. split; [exact scenario_constructed|].
  exact (bitsSet_within_size 9586 7 scenario_filter mixed_ops
           H1 scenario_constructed).
Defined.

(** Witness of X12: ["item480"] is found once ["item9"] was added, and stays
    found. *)
Lemma found_stays_found_witness :
  Contains (Add scenario_filter "item9").1 "item480" = Returned true /\
  forallb (fun op => negb (is_reset op)) reads_and_adds = true /\
  Contains (run (Add scenario_filter "item9").1 reads_and_adds) "item480" =
    Returned true.
Proof.
  assert (H1 : Contains (Add scenario_filter "item9").1 "item480" = Returned true)
    by (vm_compute; reflexivity).
  split; [exact H1|]. split; [reflexivity|].
  exact (found_stays_found (Add scenario_filter "item9").1 "item480"
           reads_and_adds H1 eq_refl).
Defined.

(** Witness of X13: a GET to /api/add. *)
Lemma wrong_method_rejected_witness :
  Method get_empty <> accepted_method ApiAdd /\
  serve Q inject_Z inject_Z Qdiv Qpow decode_item_object scenario_filter (ApiAdd, get_empty) =
    (scenario_filter,
     Returned (http_Error "Method not allowed" StatusMethodNotAllowed)).
Proof.
  assert (H1 : Method get_empty <> accepted_method ApiAdd) by discriminate.
  split; [exact H1|].
  exact (wrong_method_rejected Q inject_Z inject_Z Qdiv Qpow decode_item_object scenario_filter ApiAdd get_empty H1).
Defined.

(** Witness of X14: a POST to /api/add with an empty body. *)
Lemma undecodable_body_rejected_witness :
  (ApiAdd = ApiAdd \/ ApiAdd = ApiCheck) /\
  Method post_empty = MethodPost /\
  decode_item_object (Body post_empty) = None /\
  serve Q inject_Z inject_Z Qdiv Qpow decode_item_object scenario_filter (ApiAdd, post_empty) =
    (scenario_filter, Returned (http_Error "Invalid request" StatusBadRequest)).
Proof.
  split; [left; reflexivity|]. split; [reflexivity|]. split; [reflexivity|].
  exact (undecodable_body_rejected Q inject_Z inject_Z Qdiv Qpow decode_item_object scenario_filter ApiAdd post_empty
           (or_introl eq_refl) eq_refl eq_refl).
Defined.

(** Witness of X15: a POST to /api/add that carries ["alpha"]. *)
Lemma only_add_and_reset_change_witness :
  (serve Q inject_Z inject_Z Qdiv Qpow decode_item_object scenario_filter (ApiAdd, post_item "alpha")).1 <> scenario_filter /\
  ((ApiAdd = ApiAdd /\ Method (post_item "alpha") = MethodPost /\
    decode_item_object (Body (post_item "alpha")) <> None) \/
   (ApiAdd = ApiReset /\ Method (post_item "alpha") = MethodPost)).
Proof.
  assert (H1 : (serve Q inject_Z inject_Z Qdiv Qpow decode_item_object scenario_filter (ApiAdd, post_item "alpha")).1
               <> scenario_filter)
    by (intros H; apply (f_equal items) in H; vm_compute in H; discriminate H).
  split; [exact H1|].
  exact (only_add_and_reset_change Q inject_Z inject_Z Qdiv Qpow decode_item_object scenario_filter
           (ApiAdd, post_item "alpha") H1).
Defined.

(** Witness of X16: ["alpha"] is posted to /api/add, other requests follow,
    among them a GET to /api/reset, which is rejected, and ["alpha"] is
    checked. *)
Lemma added_item_is_found_witness :
  Method (post_item "alpha") = MethodPost /\
  decode_item_object (Body (post_item "alpha")) = Some "alpha"%string /\
  serve Q inject_Z inject_Z Qdiv Qpow decode_item_object scenario_filter (ApiAdd, post_item "alpha") =
    (alpha_filter, Returned (json_reply (Flags [("success"%string, true)]))) /\
  forallb (fun q => negb (resets q)) reads_between = true /\
  serve Q inject_Z inject_Z Qdiv Qpow decode_item_object (serve_all Q inject_Z inject_Z Qdiv Qpow decode_item_object alpha_filter reads_between)
        (ApiCheck, post_item "alpha") =
    (serve_all Q inject_Z inject_Z Qdiv Qpow decode_item_object alpha_filter reads_between,
     Returned (json_reply (Flags [("exists"%string, true)]))).
Proof.
  assert (H1 : decode_item_object (Body (post_item "alpha")) = Some "alpha"%string)
    by (vm_compute; reflexivity).
  assert (H2 : serve Q inject_Z inject_Z Qdiv Qpow decode_item_object scenario_filter (ApiAdd, post_item "alpha") =
               (alpha_filter,
                Returned (json_reply (Flags [("success"%string, true)]))))
    by (vm_compute; reflexivity).
  split; [reflexivity|]. split; [exact H1|]. split; [exact H2|].
  split; [reflexivity|].
  exact (added_item_is_found Q inject_Z inject_Z Qdiv Qpow decode_item_object scenario_filter alpha_filter
           (post_item "alpha") (post_item "alpha") _ "alpha" reads_between
           eq_refl H1 H2 eq_refl eq_refl H1).
Defined.

(** Witness of X17: the filter that holds ["alpha"] is reset, requests that
    add nothing follow, and ["alpha"] is checked. *)
Lemma nothing_found_after_reset_witness :
  1 <= m alpha_filter /\ 1 <= k alpha_filter <= MaxInt /\
  Method post_empty = MethodPost /\
  serve Q inject_Z inject_Z Qdiv Qpow decode_item_object alpha_filter (ApiReset, post_empty) =
    (scenario_filter, Returned (json_reply (Flags [("success"%string, true)]))) /\
  forallb (fun q => negb (adds q)) reads_only = true /\
  Method (post_item "alpha") = MethodPost /\
  decode_item_object (Body (post_item "alpha")) = Some "alpha"%string /\
  serve Q inject_Z inject_Z Qdiv Qpow decode_item_object (serve_all Q inject_Z inject_Z Qdiv Qpow decode_item_object scenario_filter reads_only)
        (ApiCheck, post_item "alpha") =
    (serve_all Q inject_Z inject_Z Qdiv Qpow decode_item_object scenario_filter reads_only,
     Returned (json_reply (Flags [("exists"%string, false)]))).
Proof.
  assert (H1 : 1 <= m alpha_filter) by (vm_compute; discriminate).
  assert (H2 : 1 <= k alpha_filter <= MaxInt) by (vm_compute; split; discriminate).
  assert (H3 : serve Q inject_Z inject_Z Qdiv Qpow decode_item_object alpha_filter (ApiReset, post_empty) =
               (scenario_filter,
                Returned (json_reply (Flags [("success"%string, true)]))))
    by (vm_compute; reflexivity).
  assert (H4 : decode_item_object (Body (post_item "alpha")) = Some "alpha"%string)
    by (vm_compute; reflexivity).
  split; [exact H1|]. split; [exact H2|]. split; [reflexivity|].
  split; [exact H3|]. split; [reflexivity|]. split; [reflexivity|].
  split; [exact H4|].
  exact (nothing_found_after_reset Q inject_Z inject_Z Qdiv Qpow decode_item_object alpha_filter scenario_filter
           post_empty (post_item "alpha") _ "alpha" reads_only
           H1 H2 eq_refl H3 eq_refl eq_refl H4).
Defined.

(** Witness of X18. *)
Lemma handlers_never_panic_witness :
  1 <= 9586 /\ 0 <= 7 <= MaxInt /\
  construct 9586 7 = Returned scenario_filter /\
  exists resp : Response Q,
    (serve Q inject_Z inject_Z Qdiv Qpow decode_item_object (serve_all Q inject_Z inject_Z Qdiv Qpow decode_item_object scenario_filter reads_between)
           (ApiAdd, post_item "alpha")).2 = Returned resp.
Proof.
  assert (H1 : 1 <= 9586) by discriminate.
  assert (H2 : 0 <= 7 <= MaxInt) by (split; discriminate).
  split; [exact H1|]. split; [exact H2|]. split; [exact scenario_constructed|].
  exact (handlers_never_panic Q inject_Z inject_Z Qdiv Qpow decode_item_object 9586 7 scenario_filter reads_between
           (ApiAdd, post_item "alpha") H1 H2 scenario_constructed).
Defined.
